(** * bilder/segment_image.py: cutting objects out of a white background

    A shallow embedding of [segment_objects] and of the parts of OpenCV,
    NumPy and pathlib it calls, followed by the properties of the script.

    Conventions of the embedding.
    - A Python [int] is a [Z]; a [uint8] sample is a [Z] in [0, 255].
    - A two-dimensional array ([gray], [thresh], [kernel], [mask]) is a
      list of rows.  These arrays are never aliased by the script, so each
      rebinding or in-place update of one is a new value.
    - A three-dimensional array ([img], [roi], [roi_rgba]) lives in a store
      of buffers; the Python object is an [ndarray] header (buffer, offset,
      shape), so that a basic slice shares its buffer with the array it was
      taken from while [.copy()] and the OpenCV conversions allocate.
    - A contour is the list of its points (x, y).
    - The script runs in a state-and-exception monad over the [world]:
      store, directories, regular files and console.  A path names a
      directory when it is in [dirs] and a regular file when it has an
      entry in [files].  Permissions, disk space and other processes are
      outside the model. *)

From Stdlib Require Import ZArith QArith Qabs Ascii.
From stdpp Require Import gmap strings list fin_maps pretty.

#[local] Open Scope Z_scope.

(** ** Arrays *)

Abbreviation matrix := (list (list Z)).
Abbreviation raster := (list (list (list Z))).
Abbreviation point := (Z * Z)%type.
Abbreviation contour := (list (Z * Z)).

(** [shape] of a two-dimensional array given as a list of rows. *)
Definition rows_of (m : matrix) : nat := length m.
Definition cols_of (m : matrix) : nat := length (hd [] m).

(** [l[a : a + n]] *)
Definition slice {A} (a n : nat) (l : list A) : list A := take n (drop a l).

(** ** cv2.threshold *)

Inductive threshold_type := THRESH_BINARY | THRESH_BINARY_INV.

(** One sample.  THRESH_BINARY: [maxval] if [src > thresh], else 0.
    THRESH_BINARY_INV: 0 if [src > thresh], else [maxval]. *)
Definition threshold_sample (thresh maxval : Z) (type : threshold_type) (src : Z) : Z :=
  match type with
  | THRESH_BINARY => if thresh <? src then maxval else 0
  | THRESH_BINARY_INV => if thresh <? src then 0 else maxval
  end.

(** [retval, dst = cv2.threshold(src, thresh, maxval, type)] *)
Definition cv2_threshold (src : matrix) (thresh maxval : Z) (type : threshold_type)
  : Z * matrix :=
  (thresh, map (map (threshold_sample thresh maxval type)) src).

(** ** np.ones and cv2.morphologyEx *)

(** [np.ones((h, w), np.uint8)] *)
Definition np_ones (h w : nat) : matrix := replicate h (replicate w 1).

(** Sample of [m] at row [r], column [c], when inside the array. *)
Definition sample (m : matrix) (r c : Z) : option Z :=
  if (r <? 0) || (c <? 0) then None
  else m !! Z.to_nat r ≫= fun row => row !! Z.to_nat c.

(** The samples of [src] under the non-zero cells of [kernel] when its
    anchor (the centre cell) sits on (r, c).  Cells falling outside the
    array are left out: OpenCV's default border for morphology never wins a
    minimum or a maximum. *)
Definition under_kernel (kernel src : matrix) (r c : Z) : list Z :=
  let ay := Z.of_nat (rows_of kernel) / 2 in
  let ax := Z.of_nat (cols_of kernel) / 2 in
  concat (imap (fun i krow =>
    concat (imap (fun j k =>
      if k =? 0 then []
      else match sample src (r + Z.of_nat i - ay) (c + Z.of_nat j - ax) with
           | Some v => [v]
           | None => []
           end) krow)) kernel).

Definition map_cells (f : Z -> Z -> Z) (src : matrix) : matrix :=
  imap (fun r row => imap (fun c _ => f (Z.of_nat r) (Z.of_nat c)) row) src.

(** [cv2.dilate]: maximum under the kernel; [cv2.erode]: minimum. *)
Definition cv2_dilate (src kernel : matrix) : matrix :=
  map_cells (fun r c => foldr Z.max 0 (under_kernel kernel src r c)) src.

Definition cv2_erode (src kernel : matrix) : matrix :=
  map_cells (fun r c => foldr Z.min 255 (under_kernel kernel src r c)) src.

Inductive morph_op := MORPH_OPEN | MORPH_CLOSE.

(** [cv2.morphologyEx(src, op, kernel)]: MORPH_OPEN erodes then dilates,
    MORPH_CLOSE dilates then erodes. *)
Definition cv2_morphologyEx (src : matrix) (op : morph_op) (kernel : matrix) : matrix :=
  match op with
  | MORPH_OPEN => cv2_dilate (cv2_erode src kernel) kernel
  | MORPH_CLOSE => cv2_erode (cv2_dilate src kernel) kernel
  end.

(** ** cv2.contourArea and cv2.boundingRect *)

(** The accumulation loop of [contourArea]: [prev] starts at the last point
    and each point [p] adds [prev.x * p.y - prev.y * p.x]. *)
Fixpoint area_loop (prev : point) (pts : contour) (a00 : Z) : Z :=
  match pts with
  | [] => a00
  | p :: rest => area_loop p rest (a00 + (fst prev * snd p - snd prev * fst p))
  end.

(** [cv2.contourArea(cnt)]: half the accumulated sum, in absolute value; 0
    for a contour without points.  The sum of integer products is exact in
    double precision for every image OpenCV can hold, so the result is the
    rational [|a00| / 2]. *)
Definition cv2_contourArea (cnt : contour) : Q :=
  match cnt with
  | [] => 0%Q
  | p0 :: _ => Qabs (inject_Z (area_loop (List.last cnt p0) cnt 0) * (1 # 2))
  end.

(** [cv2.boundingRect(cnt)] for a point set: [(x, y, w, h)] with
    [x, y] the least coordinates and [w, h] the extent plus one;
    [(0, 0, 0, 0)] without points. *)
Definition cv2_boundingRect (cnt : contour) : Z * Z * Z * Z :=
  match cnt with
  | [] => (0, 0, 0, 0)
  | (px, py) :: rest =>
      let xmin := foldr Z.min px (map fst rest) in
      let xmax := foldr Z.max px (map fst rest) in
      let ymin := foldr Z.min py (map snd rest) in
      let ymax := foldr Z.max py (map snd rest) in
      (xmin, ymin, xmax - xmin + 1, ymax - ymin + 1)
  end.

(** [a > b] on the floats the script compares. *)
Definition Qgtb (a b : Q) : bool := negb (Qle_bool a b).


(** ** NumPy helpers on values *)

(** [np.zeros((h, w), dtype=np.uint8)] *)
Definition zeros (h w : nat) : matrix := replicate h (replicate w 0).

(** [contour - [x1, y1]]: the offset is broadcast over the points. *)
Definition contour_sub (cnt : contour) (off : point) : contour :=
  map (fun p => (fst p - fst off, snd p - snd off)) cnt.

(** Start and length of the Python slice [start:stop] on an axis of length
    [n]: a negative index counts from the end, both ends are clamped and an
    empty range has length 0. *)
Definition slice_index (n i : Z) : Z :=
  if i <? 0 then Z.max 0 (i + n) else Z.min i n.

Definition slice_bounds (n : nat) (start stop : Z) : nat * nat :=
  let a := slice_index (Z.of_nat n) start in
  let b := slice_index (Z.of_nat n) stop in
  (Z.to_nat a, Z.to_nat (b - a)).

(** Rows [y0, y0 + h) and columns [x0, x0 + w) of a buffer. *)
Definition window {A} (y0 x0 h w : nat) (data : list (list A)) : list (list A) :=
  map (slice x0 w) (slice y0 h data).

(** Channel [k] of the cells in the window is overwritten with the values
    [v r c], [r] and [c] counted from the window's corner. *)
Definition write_channel (y0 x0 h w k : nat) (v : nat -> nat -> Z) (data : raster) : raster :=
  imap (fun r row =>
    if bool_decide (y0 ≤ r < y0 + h)%nat then
      imap (fun c px =>
        if bool_decide (x0 ≤ c < x0 + w)%nat then <[k := v (r - y0)%nat (c - x0)%nat]> px
        else px) row
    else row) data.

(** ** Strings *)

Definition newline : string := String (Ascii.ascii_of_nat 10) EmptyString.

(** [f"{n}"] for an int. *)
Definition str_Z (n : Z) : string := pretty n.
Definition str_nat (n : nat) : string := pretty n.

(** [f"{idx:02d}"] for a non-negative int. *)
Definition fmt_02d (idx : nat) : string :=
  let s := pretty idx in
  if (String.length s <? 2)%nat then "0" +:+ s else s.

(** ** The world and the monad *)

Abbreviation loc := nat.

(** An array object: buffer, offset of its first cell, shape. *)
Record ndarray := NdArray {
  nd_base : loc;
  nd_y0 : nat;
  nd_x0 : nat;
  nd_h : nat;
  nd_w : nat;
  nd_c : nat
}.

(** [a.shape] *)
Definition shape (a : ndarray) : Z * Z * Z :=
  (Z.of_nat (nd_h a), Z.of_nat (nd_w a), Z.of_nat (nd_c a)).

(** [f"{a.shape}"] *)
Definition str_shape (a : ndarray) : string :=
  "(" +:+ str_Z (shape a).1.1 +:+ ", " +:+ str_Z (shape a).1.2 +:+ ", "
      +:+ str_Z (shape a).2 +:+ ")".

Record world := World {
  heap : gmap loc raster;
  next : loc;
  dirs : gset string;
  files : gmap string raster;
  stdout : list string
}.

Inductive exn := ValueError | CvError | FileExistsError.

Inductive result (A : Type) :=
  | Ok (a : A)
  | Raise (e : exn).
Arguments Ok {A} a.
Arguments Raise {A} e.

(** What a call gives back to its caller. *)
Inductive pyval := PyNone | PyList (items : list string).

Definition M (A : Type) : Type := world -> result A * world.

Definition ret {A} (a : A) : M A := fun w => (Ok a, w).

Definition bind {A B} (m : M A) (k : A -> M B) : M B :=
  fun w => match m w with
           | (Ok a, w') => k a w'
           | (Raise e, w') => (Raise e, w')
           end.

Definition raise {A} (e : exn) : M A := fun w => (Raise e, w).

Notation "x <- m ;; k" := (bind m (fun x => k))
  (at level 100, m at next level, right associativity).
Notation "m ;;; k" := (bind m (fun _ => k))
  (at level 100, right associativity).

Fixpoint for_each {A} (body : A -> M unit) (l : list A) : M unit :=
  match l with
  | [] => ret tt
  | a :: rest => body a ;;; for_each body rest
  end.

(** [enumerate(l, start)] *)
Fixpoint enumerate {A} (start : nat) (l : list A) : list (nat * A) :=
  match l with
  | [] => []
  | a :: rest => (start, a) :: enumerate (S start) rest
  end.

(** [print(line)] *)
Definition print (line : string) : M unit :=
  fun w => (Ok tt, World (heap w) (next w) (dirs w) (files w) (stdout w ++ [line])).

(** A new buffer. *)
Definition alloc (data : raster) : M loc :=
  fun w => (Ok (next w),
            World (<[next w := data]> (heap w)) (S (next w)) (dirs w) (files w) (stdout w)).

(** The cells an array object denotes. *)
Definition cells (a : ndarray) (h : gmap loc raster) : raster :=
  window (nd_y0 a) (nd_x0 a) (nd_h a) (nd_w a) (default [] (h !! nd_base a)).

Definition ndarray_read (a : ndarray) : M raster :=
  fun w => (Ok (cells a (heap w)), w).

(** [a[y1:y2, x1:x2]]: a view on the same buffer. *)
Definition getitem_slices (a : ndarray) (y1 y2 x1 x2 : Z) : ndarray :=
  let '(ys, yn) := slice_bounds (nd_h a) y1 y2 in
  let '(xs, xn) := slice_bounds (nd_w a) x1 x2 in
  NdArray (nd_base a) (nd_y0 a + ys) (nd_x0 a + xs) yn xn (nd_c a).

(** [a.copy()]: the same cells in a buffer of their own. *)
Definition ndarray_copy (a : ndarray) : M ndarray :=
  data <- ndarray_read a ;;
  l <- alloc data ;;
  ret (NdArray l 0 0 (nd_h a) (nd_w a) (nd_c a)).

(** [np.zeros((h, w), dtype=np.uint8)]: a negative dimension is refused. *)
Definition np_zeros (h w : Z) : M matrix :=
  if (h <? 0) || (w <? 0) then raise ValueError
  else ret (zeros (Z.to_nat h) (Z.to_nat w)).

(** [a[:, :, k] = m].  NumPy broadcasts [m] to the shape [(h, w)] of the
    target: an axis of [m] must have the target's length or length 1. *)
Definition broadcasts (n target : nat) : bool :=
  bool_decide (n = target) || bool_decide (n = 1%nat).

Definition broadcast_get (m : matrix) (r c : nat) : Z :=
  let r' := if bool_decide (rows_of m = 1%nat) then 0%nat else r in
  let c' := if bool_decide (cols_of m = 1%nat) then 0%nat else c in
  default 0 (m !! r' ≫= fun row => row !! c').

Definition setitem_channel (a : ndarray) (k : nat) (m : matrix) : M unit :=
  if broadcasts (rows_of m) (nd_h a) && broadcasts (cols_of m) (nd_w a) then
    fun w =>
      (Ok tt,
       World (alter (write_channel (nd_y0 a) (nd_x0 a) (nd_h a) (nd_w a) k (broadcast_get m))
                    (nd_base a) (heap w))
             (next w) (dirs w) (files w) (stdout w))
  else raise ValueError.

(** [cv2.cvtColor(a, cv2.COLOR_BGR2BGRA)]: a new array whose pixels carry an
    opaque fourth channel; an empty source is refused. *)
Definition cv2_cvtColor_BGR2BGRA (a : ndarray) : M ndarray :=
  if bool_decide (nd_h a = 0%nat) || bool_decide (nd_w a = 0%nat) then raise CvError
  else
    data <- ndarray_read a ;;
    l <- alloc (map (map (fun px => px ++ [255])) data) ;;
    ret (NdArray l 0 0 (nd_h a) (nd_w a) 4).

(** [path.mkdir(exist_ok=True)]: nothing happens when the directory is
    there; [FileExistsError] when the path names something that is not a
    directory; otherwise the directory is made.  The script calls it on a
    path whose parent is the directory of the image it has just read, so
    the parent is there. *)
Definition mkdir_exist_ok (path : string) : M unit :=
  fun w =>
    if bool_decide (path ∈ dirs w) then (Ok tt, w)
    else if bool_decide (is_Some (files w !! path)) then (Raise FileExistsError, w)
    else (Ok tt, World (heap w) (next w) ({[path]} ∪ dirs w) (files w) (stdout w)).

(** [cv2.imwrite(path, a)]: when the file cannot be opened for writing,
    here when the path names a directory, nothing is written and the call
    returns [False] without raising.  Otherwise the file holds the cells of
    [a] (PNG is lossless), a file of that name is replaced, and the call
    returns [True].  The script writes into the directory it has just
    made, so the parent of the path is there. *)
Definition cv2_imwrite (path : string) (a : ndarray) : M bool :=
  fun w =>
    if bool_decide (path ∈ dirs w) then (Ok false, w)
    else (Ok true,
          World (heap w) (next w) (dirs w) (<[path := cells a (heap w)]> (files w))
                (stdout w)).

(** ** The script *)

Section Script.

(** What the image decoder finds at a path: the BGR raster of the file,
    or nothing when the file is missing, corrupt or of an unsupported
    format. *)
Variable decode_file : string -> option raster.

(** The intensity OpenCV gives a BGR pixel. *)
Variable bgr2gray : list Z -> Z.

(** The outer contours of the non-zero regions of a mask, in the order
    the border-following algorithm finds them, with the points between
    two changes of direction left out. *)
Variable find_external : matrix -> list contour.

(** Whether the pixel of column [x] and row [y] is painted when the given
    contours are drawn filled. *)
Variable fill_covers : list contour -> Z -> Z -> bool.

(** [Path(p).parent] and [dir / name], as strings. *)
Variable Path_parent : string -> string.
Variable Path_join : string -> string -> string.

(** [cv2.imread(path)]: [None] when nothing can be decoded, else a new
    three-channel array. *)
Definition cv2_imread (path : string) : M (option ndarray) :=
  match decode_file path with
  | None => ret None
  | Some data =>
      l <- alloc data ;;
      ret (Some (NdArray l 0 0 (length data) (length (hd [] data)) 3))
  end.

(** [cv2.cvtColor(a, cv2.COLOR_BGR2GRAY)]; an empty source is refused. *)
Definition cv2_cvtColor_BGR2GRAY (a : ndarray) : M matrix :=
  if bool_decide (nd_h a = 0%nat) || bool_decide (nd_w a = 0%nat) then raise CvError
  else
    data <- ndarray_read a ;;
    ret (map (map bgr2gray) data).

(** [contours, _ = cv2.findContours(m, cv2.RETR_EXTERNAL, cv2.CHAIN_APPROX_SIMPLE)] *)
Definition cv2_findContours (m : matrix) : list contour := find_external m.

(** [cv2.drawContours(image, contours, -1, color, -1)]: every contour of
    the list, filled. *)
Definition cv2_drawContours (image : matrix) (contours : list contour) (color : Z) : matrix :=
  imap (fun r row =>
    imap (fun c old =>
      if fill_covers contours (Z.of_nat c) (Z.of_nat r) then color else old) row) image.

(** Line 21. *)
Definition binarize (gray : matrix) : matrix :=
  let '(_, thresh) := cv2_threshold gray 240 255 THRESH_BINARY_INV in
  thresh.

(** Lines 24-26. *)
Definition clean_noise (thresh : matrix) : matrix :=
  let kernel := np_ones 5 5 in
  let thresh := cv2_morphologyEx thresh MORPH_CLOSE kernel in
  let thresh := cv2_morphologyEx thresh MORPH_OPEN kernel in
  thresh.

(** Lines 34-35. *)
Definition min_area : Z := 1000.

Definition valid_contours (contours : list contour) : list contour :=
  List.filter (fun cnt => Qgtb (cv2_contourArea cnt) (inject_Z min_area)) contours.

(** Lines 46-53: [(x1, y1, x2, y2)] for a contour in an image of shape
    [(height, width, _)]. *)
Definition padding : Z := 20.

Definition crop_box (height width : Z) (cnt : contour) : Z * Z * Z * Z :=
  let '(x, y, w, h) := cv2_boundingRect cnt in
  let x1 := Z.max 0 (x - padding) in
  let y1 := Z.max 0 (y - padding) in
  let x2 := Z.min width (x + w + padding) in
  let y2 := Z.min height (y + h + padding) in
  (x1, y1, x2, y2).

(** Lines 59-63: the mask of one contour. *)
Definition contour_mask (cnt : contour) (x1 y1 x2 y2 : Z) : M matrix :=
  mask <- np_zeros (y2 - y1) (x2 - x1) ;;
  let contour_shifted := contour_sub cnt (x1, y1) in
  ret (cv2_drawContours mask [contour_shifted] 255).

(** Lines 45-74: the body of the loop. *)
Definition export_object (img : ndarray) (output_dir : string)
    (item : nat * contour) : M unit :=
  let '(idx, cnt) := item in
  let '(_, _, w, h) := cv2_boundingRect cnt in
  let '(x1, y1, x2, y2) := crop_box (shape img).1.1 (shape img).1.2 cnt in
  roi <- ndarray_copy (getitem_slices img y1 y2 x1 x2) ;;
  mask <- contour_mask cnt x1 y1 x2 y2 ;;
  roi_rgba <- cv2_cvtColor_BGR2BGRA roi ;;
  setitem_channel roi_rgba 3 mask ;;;
  let output_path := Path_join output_dir ("part_" +:+ fmt_02d idx +:+ ".png") in
  cv2_imwrite output_path roi_rgba ;;;
  print ("Saved part " +:+ str_nat idx +:+ ": " +:+ output_path +:+ " (size: "
         +:+ str_Z w +:+ "x" +:+ str_Z h +:+ ")").

Definition segment_objects (image_path : string) : M pyval :=
  img <- cv2_imread image_path ;;
  match img with
  | None =>
      print ("Error: Could not read image " +:+ image_path) ;;;
      ret PyNone
  | Some img =>
      print ("Image shape: " +:+ str_shape img) ;;;
      gray <- cv2_cvtColor_BGR2GRAY img ;;
      let thresh := clean_noise (binarize gray) in
      let contours := cv2_findContours thresh in
      print ("Found " +:+ str_nat (length contours) +:+ " contours") ;;;
      let valid := valid_contours contours in
      print ("Found " +:+ str_nat (length valid) +:+ " valid objects (area > "
             +:+ str_Z min_area +:+ ")") ;;;
      let output_dir := Path_join (Path_parent image_path) "segmented_parts" in
      mkdir_exist_ok output_dir ;;;
      for_each (export_object img output_dir) (enumerate 1 valid) ;;;
      print (newline +:+ "Done! Saved " +:+ str_nat (length valid) +:+ " parts to "
             +:+ output_dir) ;;;
      ret PyNone
  end.

(** Lines 78-80: the script run as a program. *)
Definition main : M pyval :=
  let image_path := "ellis-tomte.jpg" in
  segment_objects image_path.

End Script.

(** ** Vocabulary of the properties *)

(** Every point of the contour is a pixel of an image of the given size. *)
Definition in_image (height width : Z) (cnt : contour) : Prop :=
  Forall (fun p => 0 <= fst p < width /\ 0 <= snd p < height) cnt.

#[global] Instance in_image_dec (height width : Z) (cnt : contour) :
  Decision (in_image height width cnt).
Proof. unfold in_image. apply _. Defined.

(** The test of line 35. *)
Definition retained (cnt : contour) : Prop :=
  Qgtb (cv2_contourArea cnt) (inject_Z min_area) = true.

(** The shoelace formula as it is usually written: half the absolute value
    of the sum, over the edges of the closed polygon, of
    [x_i * y_(i+1) - x_(i+1) * y_i]. *)
Definition cross (p q : point) : Z := fst p * snd q - fst q * snd p.

Fixpoint edge_sum (first : point) (pts : contour) : Z :=
  match pts with
  | [] => 0
  | p :: rest =>
      match rest with
      | [] => cross p first
      | q :: _ => cross p q + edge_sum first rest
      end
  end.

Definition shoelace_area (pts : contour) : Q :=
  match pts with
  | [] => 0%Q
  | first :: _ => Qabs (edge_sum first pts # 2)
  end.

(** The statement "foreground iff strictly below 240", for one grayscale
    image. *)
Definition strictly_below_240 (gray : matrix) : Prop :=
  forall r c v, sample gray r c = Some v ->
    sample (binarize gray) r c = Some (if v <? 240 then 255 else 0).

(** A mask whose samples are all 0 or 255. *)
Definition binary (m : matrix) : Prop :=
  forall r c v, sample m r c = Some v -> v = 0 \/ v = 255.

(** Closing and opening by a kernel, composed of the code's dilation and
    erosion. *)
Definition closing (kernel m : matrix) : matrix := cv2_erode (cv2_dilate m kernel) kernel.
Definition opening (kernel m : matrix) : matrix := cv2_dilate (cv2_erode m kernel) kernel.

(** The 5x5 neighbourhood of a cell, row by row. *)
Definition around5 (src : matrix) (r c : Z) : list Z :=
  flat_map (fun dr =>
    flat_map (fun dc => option_list (sample src (r + dr) (c + dc))) [-2; -1; 0; 1; 2])
    [-2; -1; 0; 1; 2].

(** A mask of 8-bit samples. *)
Definition uint8 (m : matrix) : Prop :=
  Forall (Forall (fun v => 0 <= v <= 255)) m.

#[global] Instance uint8_dec (m : matrix) : Decision (uint8 m).
Proof. unfold uint8. apply _. Defined.

(** Morphology as the design describes it, on fields of samples: [f r c]
    is the sample of row [r] and column [c] where the image has one.

    [near5 f r c u]: [u] is a sample of [f] at most two rows and two
    columns away from (r, c), that is, under a 5x5 element of ones centred
    on (r, c). *)
Abbreviation field := (Z -> Z -> option Z).

(** A field of 8-bit samples. *)
Definition bytes (f : field) : Prop := forall r c v, f r c = Some v -> 0 <= v <= 255.

Definition near5 (f : field) (r c u : Z) : Prop :=
  exists dr dc, -2 <= dr <= 2 /\ -2 <= dc <= 2 /\ f (r + dr) (c + dc) = Some u.

Definition greatest5 (f : field) (r c v : Z) : Prop :=
  near5 f r c v /\ forall u, near5 f r c u -> u <= v.

Definition least5 (f : field) (r c v : Z) : Prop :=
  near5 f r c v /\ forall u, near5 f r c u -> v <= u.

(** [g] is the dilation of [f]: each sample becomes the greatest sample
    under the element.  [g] is the erosion of [f]: the least. *)
Definition dilation5 (f g : field) : Prop :=
  forall r c, match f r c with
              | Some _ => exists v, g r c = Some v /\ greatest5 f r c v
              | None => g r c = None
              end.

Definition erosion5 (f g : field) : Prop :=
  forall r c, match f r c with
              | Some _ => exists v, g r c = Some v /\ least5 f r c v
              | None => g r c = None
              end.

(** Closing is dilation followed by erosion, opening is erosion followed
    by dilation. *)
Definition closing5 (f g : field) : Prop :=
  exists d : field, dilation5 f d /\ erosion5 d g.

Definition opening5 (f g : field) : Prop :=
  exists e : field, erosion5 f e /\ dilation5 e g.

(** A raster of [h] rows, [w] columns and [c] channels. *)
Definition rect (h w c : nat) (data : raster) : Prop :=
  length data = h /\ Forall (fun row => length row = w /\ Forall (fun px => length px = c) row) data.

#[global] Instance rect_dec (h w c : nat) (data : raster) : Decision (rect h w c data).
Proof. unfold rect. apply _. Defined.

(** The array object [a] denotes cells of its shape in the store [hp]. *)
Definition nd_valid (hp : gmap loc raster) (a : ndarray) : Prop :=
  rect (nd_h a) (nd_w a) (nd_c a) (cells a hp).

(** Buffers are handed out in increasing order. *)
Definition heap_ok (w : world) : Prop :=
  forall l, (next w <= l)%nat -> heap w !! l = None.

(** [path.mkdir(exist_ok=True)] has nothing in its way: the path names a
    directory or nothing at all. *)
Definition can_mkdir (w : world) (path : string) : Prop :=
  path ∈ dirs w \/ files w !! path = None.

#[global] Instance can_mkdir_dec (w : world) (path : string) : Decision (can_mkdir w path).
Proof. unfold can_mkdir. apply _. Defined.

(** Cell (r, c) of a raster. *)
Definition pixel (data : raster) (r c : nat) : option (list Z) :=
  data !! r ≫= fun row => row !! c.

(** [a[r, c, k] = v]: one sample written through an array object. *)
Definition setitem_sample (a : ndarray) (r c k : nat) (v : Z) : M unit :=
  fun w =>
    (Ok tt,
     World (alter (fun data =>
              if bool_decide (r < nd_h a)%nat && bool_decide (c < nd_w a)%nat then
                alter (alter (fun px => <[k := v]> px) (nd_x0 a + c)%nat) (nd_y0 a + r)%nat data
              else data) (nd_base a) (heap w))
           (next w) (dirs w) (files w) (stdout w)).

(** ** What one turn of the loop leaves behind *)

Section Exported.

Variable fill_covers : list contour -> Z -> Z -> bool.
Variable Path_join : string -> string -> string.

(** The cells of [img[y1:y2, x1:x2]] for the crop of a contour. *)
Definition crop_cells (img : ndarray) (hp : gmap loc raster) (cnt : contour) : raster :=
  let '(x1, y1, x2, y2) := crop_box (shape img).1.1 (shape img).1.2 cnt in
  cells (getitem_slices img y1 y2 x1 x2) hp.

(** The mask of the contour, drawn in the frame of its crop. *)
Definition object_mask (img : ndarray) (cnt : contour) : matrix :=
  let '(x1, y1, x2, y2) := crop_box (shape img).1.1 (shape img).1.2 cnt in
  cv2_drawContours fill_covers (zeros (Z.to_nat (y2 - y1)) (Z.to_nat (x2 - x1)))
    [contour_sub cnt (x1, y1)] 255.

(** The crop with its fourth channel taken from the mask. *)
Definition object_rgba (img : ndarray) (hp : gmap loc raster) (cnt : contour) : raster :=
  let '(x1, y1, x2, y2) := crop_box (shape img).1.1 (shape img).1.2 cnt in
  write_channel 0 0 (Z.to_nat (y2 - y1)) (Z.to_nat (x2 - x1)) 3
    (broadcast_get (object_mask img cnt))
    (map (map (fun px => px ++ [255])) (crop_cells img hp cnt)).

Definition object_path (output_dir : string) (idx : nat) : string :=
  Path_join output_dir ("part_" +:+ fmt_02d idx +:+ ".png").

Definition saved_line (output_dir : string) (item : nat * contour) : string :=
  let '(_, _, w, h) := cv2_boundingRect item.2 in
  "Saved part " +:+ str_nat item.1 +:+ ": " +:+ object_path output_dir item.1
    +:+ " (size: " +:+ str_Z w +:+ "x" +:+ str_Z h +:+ ")".

(** The files after [cv2.imwrite(path, picture)] in a world with the
    directories [ds]. *)
Definition written (ds : gset string) (path : string) (picture : raster)
    (fs : gmap string raster) : gmap string raster :=
  if bool_decide (path ∈ ds) then fs else <[path := picture]> fs.

(** The world after one object has been exported: two new buffers (the
    crop and its BGRA version), one file if it could be written, one
    line. *)
Definition exported (img : ndarray) (output_dir : string) (item : nat * contour)
    (w : world) : world :=
  World (<[S (next w) := object_rgba img (heap w) item.2]>
           (<[next w := crop_cells img (heap w) item.2]> (heap w)))
        (S (S (next w))) (dirs w)
        (written (dirs w) (object_path output_dir item.1)
                 (object_rgba img (heap w) item.2) (files w))
        (stdout w ++ [saved_line output_dir item]).

(** The world after all of them, in order. *)
Definition exported_all (img : ndarray) (output_dir : string)
    (items : list (nat * contour)) (w : world) : world :=
  foldl (fun w item => exported img output_dir item w) w items.

End Exported.

(** An array object of a world: its buffer has been handed out and holds
    cells of the object's shape. *)
Definition live (w : world) (a : ndarray) : Prop :=
  (nd_base a < next w)%nat /\ nd_valid (heap w) a.

(** A contour the loop can export from [img]: it has points, all of them
    pixels of the image. *)
Definition drawable (img : ndarray) (item : nat * contour) : Prop :=
  item.2 <> [] /\ in_image (Z.of_nat (nd_h img)) (Z.of_nat (nd_w img)) item.2.

(** ** What a whole run leaves behind *)

(** What the decoder returns when it returns something: a non-empty
    rectangular raster of three channels. *)
Definition decoded_ok (data : raster) : Prop :=
  data <> [] /\ hd [] data <> [] /\ rect (length data) (length (hd [] data)) 3 data.

Section Finished.

Variable bgr2gray : list Z -> Z.
Variable find_external : matrix -> list contour.
Variable fill_covers : list contour -> Z -> Z -> bool.
Variable Path_parent : string -> string.
Variable Path_join : string -> string -> string.

(** The contours the script exports from a decoded raster, in order. *)
Definition objects_of (data : raster) : list contour :=
  valid_contours
    (cv2_findContours find_external (clean_noise (binarize (map (map bgr2gray) data)))).

Definition output_dir_of (image_path : string) : string :=
  Path_join (Path_parent image_path) "segmented_parts".

(** The files the script saves, in the order it saves them. *)
Definition saved_files (image_path : string) (data : raster) : list string :=
  map (fun item => object_path Path_join (output_dir_of image_path) item.1)
      (enumerate 1 (objects_of data)).

(** The array object [img] of a run started in [w]. *)
Definition loaded_img (data : raster) (w : world) : ndarray :=
  NdArray (next w) 0 0 (length data) (length (hd [] data)) 3.

(** The world when the loop starts. *)
Definition before_export (image_path : string) (data : raster) (w : world) : world :=
  World (<[next w := data]> (heap w)) (S (next w))
        ({[output_dir_of image_path]} ∪ dirs w) (files w)
        (stdout w ++
         ["Image shape: " +:+ str_shape (loaded_img data w);
          "Found " +:+ str_nat (length (cv2_findContours find_external
             (clean_noise (binarize (map (map bgr2gray) data))))) +:+ " contours";
          "Found " +:+ str_nat (length (objects_of data)) +:+ " valid objects (area > "
             +:+ str_Z min_area +:+ ")"]).

(** The world when [mkdir] is called: the same, without the directory. *)
Definition before_mkdir (image_path : string) (data : raster) (w : world) : world :=
  World (<[next w := data]> (heap w)) (S (next w)) (dirs w) (files w)
        (stdout (before_export image_path data w)).

(** The world when the run is over. *)
Definition finished (image_path : string) (data : raster) (w : world) : world :=
  let w' := exported_all fill_covers Path_join (loaded_img data w) (output_dir_of image_path)
              (enumerate 1 (objects_of data)) (before_export image_path data w) in
  World (heap w') (next w') (dirs w') (files w')
        (stdout w' ++
         [newline +:+ "Done! Saved " +:+ str_nat (length (objects_of data)) +:+ " parts to "
            +:+ output_dir_of image_path]).

End Finished.

(** ** Files as a run writes them *)

(** [cv2.imwrite] applied to a list of paths and images, first to last,
    in a world with the directories [ds]. *)
Definition write_all (ds : gset string) (saved : list (string * raster))
    (fs : gmap string raster) : gmap string raster :=
  foldl (fun fs pc => written ds pc.1 pc.2 fs) fs saved.

Section Saved.

Variable bgr2gray : list Z -> Z.
Variable find_external : matrix -> list contour.
Variable fill_covers : list contour -> Z -> Z -> bool.
Variable Path_parent : string -> string.
Variable Path_join : string -> string -> string.

(** The picture cut out of a decoded raster for one contour: what
    [object_rgba] gives when the raster is the whole of its buffer. *)
Definition cutout (data : raster) (cnt : contour) : raster :=
  object_rgba fill_covers (NdArray 0 0 0 (length data) (length (hd [] data)) 3)
    {[0%nat := data]} cnt.

(** Path and picture of every object of a decoded raster, in export order. *)
Definition saved_images (image_path : string) (data : raster) : list (string * raster) :=
  map (fun item =>
         (object_path Path_join (output_dir_of Path_parent Path_join image_path) item.1,
          cutout data item.2))
      (enumerate 1 (objects_of bgr2gray find_external data)).

End Saved.

(** ** A run on a small picture *)

Module Demo.

Definition white : list Z := [255; 255; 255].
Definition black : list Z := [0; 0; 0].

(** 48x48, white, with a black square on rows and columns 6 to 41. *)
Definition picture : raster :=
  imap (fun r _ =>
    imap (fun c _ =>
      if bool_decide (6 ≤ r ≤ 41)%nat && bool_decide (6 ≤ c ≤ 41)%nat then black else white)
      (replicate 48 tt)) (replicate 48 tt).

(** 8x8, white. *)
Definition blank : raster := replicate 8 (replicate 8 white).

Definition decode_file (path : string) : option raster :=
  if String.eqb path "ellis-tomte.jpg" then Some picture
  else if String.eqb path "blank.png" then Some blank
  else None.

Definition bgr2gray (px : list Z) : Z :=
  match px with
  | [b; g; r] => (b * 1868 + g * 9617 + r * 4899 + 8192) / 16384
  | _ => 0
  end.

Definition nonzero_points (m : matrix) : list point :=
  concat (imap (fun r row =>
    concat (imap (fun c v => if v =? 0 then [] else [(Z.of_nat c, Z.of_nat r)]) row)) m).

(** One contour: the corners of the box around the non-zero samples. *)
Definition find_external (m : matrix) : list contour :=
  match nonzero_points m with
  | [] => []
  | pts =>
      let '(x, y, w, h) := cv2_boundingRect pts in
      [[(x, y); (x, y + h - 1); (x + w - 1, y + h - 1); (x + w - 1, y)]]
  end.

Definition in_box (cnt : contour) (x y : Z) : bool :=
  let '(bx, by_, bw, bh) := cv2_boundingRect cnt in
  (bx <=? x) && (x <? bx + bw) && (by_ <=? y) && (y <? by_ + bh).

Definition fill_covers (cs : list contour) (x y : Z) : bool :=
  existsb (fun cnt => in_box cnt x y) cs.

Definition Path_parent (path : string) : string := ".".

Definition Path_join (dir name : string) : string :=
  if String.eqb dir "." then name else dir +:+ "/" +:+ name.

Definition world0 : world := World ∅ 0%nat ∅ ∅ [].

Definition run (image_path : string) : result pyval * world :=
  segment_objects decode_file bgr2gray find_external fill_covers Path_parent Path_join
    image_path world0.

Definition square : contour := [(6, 6); (6, 41); (41, 41); (41, 6)].

(** The picture loaded in buffer 0 and its array object. *)
Definition loaded : world := World {[0%nat := picture]} 1 ∅ ∅ [].
Definition img : ndarray := NdArray 0 0 0 48 48 3.

(** 80x80, white, with a black square on rows and columns 25 to 60: an
    object whose crop does not start at the corner of the image. *)
Definition wide : raster :=
  imap (fun r _ =>
    imap (fun c _ =>
      if bool_decide (25 ≤ r ≤ 60)%nat && bool_decide (25 ≤ c ≤ 60)%nat then black else white)
      (replicate 80 tt)) (replicate 80 tt).

Definition offcentre : contour := [(25, 25); (25, 60); (60, 60); (60, 25)].

Definition loaded_wide : world := World {[0%nat := wide]} 1 ∅ ∅ [].
Definition img_wide : ndarray := NdArray 0 0 0 80 80 3.

(** A world where [segmented_parts] is a regular file, and one where
    [part_01.png] is a directory of [segmented_parts]. *)
Definition blocked : world :=
  World ∅ 0%nat ∅ {["segmented_parts" := [[[0; 0; 0]]]]} [].

Definition occupied : world :=
  World ∅ 0%nat {["segmented_parts"; "segmented_parts/part_01.png"]} ∅ [].

End Demo.

Example threshold_240 : threshold_sample 240 255 THRESH_BINARY_INV 240 = 255.
Proof. reflexivity. Qed.

Example fmt_02d_7 : fmt_02d 7 = "07".
Proof. reflexivity. Qed.

Example fmt_02d_123 : fmt_02d 123 = "123".
Proof. reflexivity. Qed.

(** ** Lists, samples and slices *)

Lemma map_fmap {A B} (f : A -> B) (l : list A) : map f l = f <$> l.
Proof. induction l as [|a l IH]; [done|]. simpl. by rewrite IH. Qed.

Lemma sample_map (f : Z -> Z) (m : matrix) (r c : Z) :
  sample (map (map f) m) r c = f <$> sample m r c.
Proof.
  unfold sample. destruct ((r <? 0) || (c <? 0)); [done|].
  rewrite (map_fmap (map f) m), list_lookup_fmap.
  destruct (m !! Z.to_nat r) as [row|]; [|done]. simpl.
  by rewrite (map_fmap f row), list_lookup_fmap.
Qed.

Lemma Qgtb_lt (a b : Q) : Qgtb a b = true <-> (b < a)%Q.
Proof.
  unfold Qgtb. rewrite negb_true_iff. split.
  - intros H. apply Qnot_le_lt. intros Hle. apply Qle_bool_iff in Hle. congruence.
  - intros H. destruct (Qle_bool a b) eqn:E; [|done].
    apply Qle_bool_iff in E. exfalso. eapply Qlt_not_le; eauto.
Qed.

(** ** Binarization *)

(** The binarized sample is [maxval] or 0 according to the threshold test. *)
Lemma binarize_sample (gray : matrix) (r c : Z) :
  sample (binarize gray) r c
  = (fun v => if 240 <? v then 0 else 255) <$> sample gray r c.
Proof. unfold binarize, cv2_threshold. by rewrite sample_map. Qed.

(** C2, as stated, fails on a pixel of intensity exactly 240: the script
    makes it foreground. *)
Lemma binarize_240_is_foreground : ~ strictly_below_240 [[240]].
Proof. intros H. specialize (H 0 0 240 eq_refl). discriminate H. Qed.

(** C2, amended: a pixel of the grayscale image is foreground (255) iff its
    intensity is at most 240, and background (0) iff it is above 240; a
    pixel of intensity 240 is foreground. *)
Theorem binarize_foreground_iff (gray : matrix) (r c v : Z) :
  sample gray r c = Some v ->
  (sample (binarize gray) r c = Some 255 <-> v <= 240) /\
  (sample (binarize gray) r c = Some 0 <-> 240 < v) /\
  (v = 240 -> sample (binarize gray) r c = Some 255).
Proof.
  intros Hv. rewrite binarize_sample, Hv. simpl.
  destruct (Z.ltb_spec 240 v); repeat split; intros; try lia; try done; try congruence.
Qed.

Lemma binarize_foreground_iff_witness :
  sample [[17; 240]; [241; 255]] 0 1 = Some 240 /\
  sample (binarize [[17; 240]; [241; 255]]) 0 1 = Some 255.
Proof.
  split; [reflexivity|].
  apply (binarize_foreground_iff [[17; 240]; [241; 255]] 0 1 240); reflexivity.
Defined.

(** ** Noise cleaning *)

(** Under the 5x5 kernel of ones lies the 5x5 neighbourhood of the cell. *)
Lemma under_ones_5x5 (src : matrix) (r c : Z) :
  under_kernel (np_ones 5 5) src r c = around5 src r c.
Proof.
  unfold under_kernel, around5, np_ones, rows_of, cols_of. cbn -[sample Z.add Z.sub Z.div].
  change (Z.of_nat 5 `div` 2) with 2. change (Z.of_nat 0) with 0.
  change (Z.of_nat 1) with 1. change (Z.of_nat 2) with 2. change (Z.of_nat 3) with 3.
  change (Z.of_nat 4) with 4.
  replace (r + 0 - 2) with (r + -2) by lia. replace (r + 1 - 2) with (r + -1) by lia.
  replace (r + 2 - 2) with (r + 0) by lia. replace (r + 3 - 2) with (r + 1) by lia.
  replace (r + 4 - 2) with (r + 2) by lia.
  replace (c + 0 - 2) with (c + -2) by lia. replace (c + 1 - 2) with (c + -1) by lia.
  replace (c + 2 - 2) with (c + 0) by lia. replace (c + 3 - 2) with (c + 1) by lia.
  replace (c + 4 - 2) with (c + 2) by lia.
  reflexivity.
Qed.

(** Closing before opening and opening before closing give different masks:
    a 5x5 block with a one-pixel hole survives the first and vanishes in
    the second. *)
Lemma closing_opening_order_matters :
  let m := imap (fun r _ => imap (fun c _ =>
             if bool_decide (4 ≤ r ≤ 8)%nat && bool_decide (4 ≤ c ≤ 8)%nat
                && negb (bool_decide (r = 6 /\ c = 6)%nat)
             then 255 else 0) (replicate 13 tt)) (replicate 13 tt) in
  sample (opening (np_ones 5 5) (closing (np_ones 5 5) m)) 6 6 = Some 255 /\
  sample (closing (np_ones 5 5) (opening (np_ones 5 5) m)) 6 6 = Some 0.
Proof. vm_compute. done. Qed.

(** ** Contour area *)

Lemma last_default {A} (l : list A) (a d d' : A) :
  List.last (a :: l) d = List.last (a :: l) d'.
Proof.
  revert a. induction l as [|b l IH]; intros a; [done|].
  change (List.last (b :: l) d = List.last (b :: l) d'). apply IH.
Qed.

(** The accumulation loop walks the same edges as the shoelace sum, one
    place round the polygon. *)
Lemma area_loop_edge_sum (pts : contour) (p prev first : point) (a00 : Z) :
  area_loop prev (p :: pts) a00 + cross (List.last (p :: pts) prev) first
  = a00 + cross prev p + edge_sum first (p :: pts).
Proof.
  revert p prev a00. induction pts as [|q pts IH]; intros p prev a00.
  - simpl. unfold cross. lia.
  - change (area_loop prev (p :: q :: pts) a00)
      with (area_loop p (q :: pts) (a00 + (fst prev * snd p - snd prev * fst p))).
    change (List.last (p :: q :: pts) prev) with (List.last (q :: pts) prev).
    rewrite (last_default pts q prev p).
    rewrite IH.
    change (edge_sum first (p :: q :: pts)) with (cross p q + edge_sum first (q :: pts)).
    unfold cross. lia.
Qed.

(** What OpenCV computes is the shoelace area. *)
Lemma contourArea_shoelace (cnt : contour) : cv2_contourArea cnt = shoelace_area cnt.
Proof.
  destruct cnt as [|p0 rest]; [done|].
  unfold cv2_contourArea, shoelace_area.
  pose proof (area_loop_edge_sum rest p0 (List.last (p0 :: rest) p0) p0 0) as H.
  rewrite (last_default rest p0 (List.last (p0 :: rest) p0) p0) in H.
  assert (area_loop (List.last (p0 :: rest) p0) (p0 :: rest) 0 = edge_sum p0 (p0 :: rest))
    as -> by lia.
  f_equal. unfold Qmult, inject_Z. simpl. f_equal. lia.
Qed.

Lemma valid_contours_sublist (contours : list contour) :
  valid_contours contours `sublist_of` contours.
Proof.
  unfold valid_contours. induction contours as [|c l IH]; simpl; [constructor|].
  destruct (Qgtb _ _); by constructor.
Qed.

Lemma elem_of_valid_contours (contours : list contour) (cnt : contour) :
  cnt ∈ valid_contours contours <-> cnt ∈ contours /\ retained cnt.
Proof.
  unfold valid_contours, retained.
  rewrite !list_elem_of_In. apply filter_In.
Qed.

(** C5: a contour is retained iff it was extracted and its shoelace area is
    strictly greater than 1000; a contour whose area does not exceed 1000 is
    discarded; the retained contours are a subsequence of the extracted
    ones, in the same order. *)
Theorem valid_contours_area_filter (contours : list contour) :
  (forall cnt, cnt ∈ valid_contours contours <->
               cnt ∈ contours /\ (1000 < shoelace_area cnt)%Q) /\
  (forall cnt, (shoelace_area cnt <= 1000)%Q -> cnt ∉ valid_contours contours) /\
  valid_contours contours `sublist_of` contours /\
  valid_contours contours
  = List.filter (fun cnt => Qgtb (shoelace_area cnt) 1000%Q) contours.
Proof.
  assert (forall cnt, retained cnt <-> (1000 < shoelace_area cnt)%Q) as Hret.
  { intros cnt. unfold retained. rewrite contourArea_shoelace. apply Qgtb_lt. }
  split; [|split; [|split]].
  - intros cnt. rewrite elem_of_valid_contours, Hret. done.
  - intros cnt Hle Hin. apply elem_of_valid_contours in Hin as [_ Hr].
    apply Hret in Hr. eapply Qlt_not_le; eauto.
  - apply valid_contours_sublist.
  - unfold valid_contours. apply filter_ext. intros cnt.
    by rewrite contourArea_shoelace.
Qed.

(** ** Bounding box and crop *)

Lemma foldr_min_bounds (lo hi a : Z) (l : list Z) :
  lo <= a <= hi -> Forall (fun v => lo <= v <= hi) l ->
  lo <= foldr Z.min a l <= hi /\ foldr Z.min a l <= a.
Proof.
  intros Ha Hl. induction Hl as [|v l Hv _ IH]; simpl; lia.
Qed.

Lemma foldr_max_bounds (lo hi a : Z) (l : list Z) :
  lo <= a <= hi -> Forall (fun v => lo <= v <= hi) l ->
  lo <= foldr Z.max a l <= hi /\ a <= foldr Z.max a l.
Proof.
  intros Ha Hl. induction Hl as [|v l Hv _ IH]; simpl; lia.
Qed.

Lemma retained_nonempty (cnt : contour) : retained cnt -> cnt <> [].
Proof. intros H ->. discriminate H. Qed.

(** The box of a contour drawn in the image lies in the image and is at
    least one pixel wide and high. *)
Lemma boundingRect_in_image (height width : Z) (cnt : contour) (x y w h : Z) :
  cnt <> [] -> in_image height width cnt -> cv2_boundingRect cnt = (x, y, w, h) ->
  0 <= x /\ 0 <= y /\ 1 <= w /\ 1 <= h /\ x + w <= width /\ y + h <= height.
Proof.
  intros Hne Him Hbox. destruct cnt as [|[px py] rest]; [done|].
  apply Forall_cons in Him as [[Hpx Hpy] Hrest]. simpl in Hpx, Hpy.
  assert (Forall (fun v => 0 <= v <= width - 1) (map fst rest)) as Hxs.
  { rewrite (map_fmap fst rest). apply Forall_fmap.
    eapply Forall_impl; [exact Hrest|]. simpl. intros p [? ?]. lia. }
  assert (Forall (fun v => 0 <= v <= height - 1) (map snd rest)) as Hys.
  { rewrite (map_fmap snd rest). apply Forall_fmap.
    eapply Forall_impl; [exact Hrest|]. simpl. intros p [? ?]. lia. }
  pose proof (foldr_min_bounds 0 (width - 1) px _ ltac:(lia) Hxs).
  pose proof (foldr_max_bounds 0 (width - 1) px _ ltac:(lia) Hxs).
  pose proof (foldr_min_bounds 0 (height - 1) py _ ltac:(lia) Hys).
  pose proof (foldr_max_bounds 0 (height - 1) py _ ltac:(lia) Hys).
  unfold cv2_boundingRect in Hbox. injection Hbox as <- <- <- <-. lia.
Qed.

Lemma crop_box_eq (height width : Z) (cnt : contour) (x y w h : Z) :
  cv2_boundingRect cnt = (x, y, w, h) ->
  crop_box height width cnt
  = (Z.max 0 (x - 20), Z.max 0 (y - 20),
     Z.min width (x + w + 20), Z.min height (y + h + 20)).
Proof. intros H. unfold crop_box, padding. by rewrite H. Qed.

(** The crop of a contour drawn in the image: inside the image, around the
    box, never empty. *)
Lemma crop_box_bounds (height width : Z) (cnt : contour) (x1 y1 x2 y2 : Z) :
  cnt <> [] -> in_image height width cnt ->
  crop_box height width cnt = (x1, y1, x2, y2) ->
  0 <= x1 < x2 /\ x2 <= width /\ 0 <= y1 < y2 /\ y2 <= height.
Proof.
  intros Hne Him Hcrop.
  destruct (cv2_boundingRect cnt) as [[[x y] w] h] eqn:Hbox.
  pose proof (boundingRect_in_image _ _ _ _ _ _ _ Hne Him Hbox).
  rewrite (crop_box_eq _ _ _ _ _ _ _ Hbox) in Hcrop.
  injection Hcrop as <- <- <- <-. lia.
Qed.

(** C4: for a retained contour of an image of the given height and width,
    with bounding box (x, y, w, h), the crop is x1 = max(0, x-20),
    y1 = max(0, y-20), x2 = min(width, x+w+20), y2 = min(height, y+h+20),
    and 0 <= x1 <= x2 <= width, 0 <= y1 <= y2 <= height. *)
Theorem crop_box_within_image (height width : Z) (cnt : contour) (x y w h : Z) :
  retained cnt -> in_image height width cnt ->
  cv2_boundingRect cnt = (x, y, w, h) ->
  exists x1 y1 x2 y2,
    crop_box height width cnt = (x1, y1, x2, y2) /\
    x1 = Z.max 0 (x - 20) /\ y1 = Z.max 0 (y - 20) /\
    x2 = Z.min width (x + w + 20) /\ y2 = Z.min height (y + h + 20) /\
    0 <= x1 <= x2 /\ x2 <= width /\ 0 <= y1 <= y2 /\ y2 <= height.
Proof.
  intros Hret Him Hbox.
  pose proof (crop_box_eq height width _ _ _ _ _ Hbox) as Hcrop.
  pose proof (crop_box_bounds _ _ _ _ _ _ _ (retained_nonempty _ Hret) Him Hcrop).
  eexists _, _, _, _. split; [exact Hcrop|]. repeat split; lia.
Qed.

Lemma crop_box_within_image_witness :
  exists x1 y1 x2 y2,
    crop_box 48 48 Demo.square = (x1, y1, x2, y2) /\
    x1 = Z.max 0 (6 - 20) /\ y1 = Z.max 0 (6 - 20) /\
    x2 = Z.min 48 (6 + 36 + 20) /\ y2 = Z.min 48 (6 + 36 + 20) /\
    0 <= x1 <= x2 /\ x2 <= 48 /\ 0 <= y1 <= y2 /\ y2 <= 48.
Proof.
  apply (crop_box_within_image 48 48 Demo.square 6 6 36 36).
  - reflexivity.
  - unfold in_image, Demo.square. repeat constructor; simpl; lia.
  - reflexivity.
Defined.

(** ** Slices, windows and rectangles *)

Lemma slice_fmap {A B} (f : A -> B) (a n : nat) (l : list A) :
  slice a n (f <$> l) = f <$> slice a n l.
Proof. unfold slice. by rewrite fmap_take, fmap_drop. Qed.

Lemma slice_slice {A} (a n b m : nat) (l : list A) :
  (a + n ≤ m)%nat -> slice a n (slice b m l) = slice (b + a) n l.
Proof.
  intros H. unfold slice.
  rewrite (take_drop_commute (take m (drop b l)) n a), take_take.
  replace ((a + n) `min` m)%nat with (a + n)%nat by lia.
  by rewrite <- take_drop_commute, drop_drop.
Qed.

Lemma length_slice {A} (a n : nat) (l : list A) :
  (a + n ≤ length l)%nat -> length (slice a n l) = n.
Proof. intros H. unfold slice. rewrite length_take, length_drop. lia. Qed.

Lemma lookup_slice {A} (a n i : nat) (l : list A) :
  (i < n)%nat -> slice a n l !! i = l !! (a + i)%nat.
Proof. intros H. unfold slice. by rewrite lookup_take_lt, lookup_drop. Qed.

Lemma slice_all {A} (l : list A) : slice 0 (length l) l = l.
Proof. unfold slice. simpl. by rewrite take_ge. Qed.

Lemma window_window {A} (y0 x0 h w ys xs yn xn : nat) (data : list (list A)) :
  (ys + yn ≤ h)%nat -> (xs + xn ≤ w)%nat ->
  window ys xs yn xn (window y0 x0 h w data) = window (y0 + ys) (x0 + xs) yn xn data.
Proof.
  intros Hy Hx. unfold window.
  rewrite !map_fmap, slice_fmap, (slice_slice ys yn y0 h) by done.
  rewrite <- list_fmap_compose. apply list_fmap_ext. intros _ row _. simpl.
  by apply slice_slice.
Qed.

Lemma window_full (h w c : nat) (data : raster) :
  rect h w c data -> window 0 0 h w data = data.
Proof.
  intros [Hlen Hrows]. unfold window. rewrite <- Hlen, slice_all. clear Hlen.
  rewrite map_fmap. induction Hrows as [|row rest [Hrow _] _ IH]; [done|].
  simpl. f_equal; [|apply IH]. unfold slice. simpl. apply take_ge. lia.
Qed.

Lemma rect_window (h w c ys xs yn xn : nat) (data : raster) :
  rect h w c data -> (ys + yn ≤ h)%nat -> (xs + xn ≤ w)%nat ->
  rect yn xn c (window ys xs yn xn data).
Proof.
  intros [Hlen Hrows] Hy Hx. unfold window, rect. rewrite map_fmap. split.
  - rewrite length_fmap. apply length_slice. lia.
  - apply Forall_fmap. unfold slice at 2.
    apply Forall_take, Forall_drop.
    eapply Forall_impl; [exact Hrows|]. simpl. intros row [Hrow Hpx]. split.
    + apply length_slice. lia.
    + unfold slice. by apply Forall_take, Forall_drop.
Qed.

Lemma pixel_window {A} (y0 x0 h w r c : nat) (data : list (list A)) :
  (r < h)%nat -> (c < w)%nat ->
  window y0 x0 h w data !! r ≫= (fun row => row !! c)
  = data !! (y0 + r)%nat ≫= (fun row => row !! (x0 + c)%nat).
Proof.
  intros Hr Hc. unfold window.
  rewrite map_fmap, list_lookup_fmap, lookup_slice by done.
  destruct (data !! (y0 + r)%nat) as [row|]; [|done]. simpl.
  by apply lookup_slice.
Qed.

Lemma slice_bounds_in_range (n : nat) (start stop : Z) :
  0 <= start <= stop -> stop <= Z.of_nat n ->
  slice_bounds n start stop = (Z.to_nat start, Z.to_nat (stop - start)).
Proof.
  intros H1 H2. unfold slice_bounds, slice_index.
  destruct (Z.ltb_spec start 0), (Z.ltb_spec stop 0); try lia.
  by rewrite !Z.min_l by lia.
Qed.

(** A slice of a valid array inside its bounds: same buffer, the expected
    offset and shape, and valid. *)
Lemma getitem_slices_in_range (a : ndarray) (y1 y2 x1 x2 : Z) :
  0 <= y1 <= y2 -> y2 <= Z.of_nat (nd_h a) ->
  0 <= x1 <= x2 -> x2 <= Z.of_nat (nd_w a) ->
  getitem_slices a y1 y2 x1 x2
  = NdArray (nd_base a) (nd_y0 a + Z.to_nat y1) (nd_x0 a + Z.to_nat x1)
            (Z.to_nat (y2 - y1)) (Z.to_nat (x2 - x1)) (nd_c a).
Proof.
  intros. unfold getitem_slices. by rewrite !slice_bounds_in_range.
Qed.

Lemma cells_getitem_slices (hp : gmap loc raster) (a : ndarray) (y1 y2 x1 x2 : Z) :
  0 <= y1 <= y2 -> y2 <= Z.of_nat (nd_h a) ->
  0 <= x1 <= x2 -> x2 <= Z.of_nat (nd_w a) ->
  cells (getitem_slices a y1 y2 x1 x2) hp
  = window (Z.to_nat y1) (Z.to_nat x1) (Z.to_nat (y2 - y1)) (Z.to_nat (x2 - x1)) (cells a hp).
Proof.
  intros. rewrite getitem_slices_in_range by done. unfold cells. simpl.
  symmetry. apply window_window; lia.
Qed.

Lemma getitem_slices_valid (hp : gmap loc raster) (a : ndarray) (y1 y2 x1 x2 : Z) :
  nd_valid hp a ->
  0 <= y1 <= y2 -> y2 <= Z.of_nat (nd_h a) ->
  0 <= x1 <= x2 -> x2 <= Z.of_nat (nd_w a) ->
  rect (Z.to_nat (y2 - y1)) (Z.to_nat (x2 - x1)) (nd_c a)
       (cells (getitem_slices a y1 y2 x1 x2) hp).
Proof.
  intros Hv ? ? ? ?. rewrite cells_getitem_slices by done.
  eapply rect_window; [exact Hv| |]; lia.
Qed.

Lemma rect_add_alpha (h w c : nat) (data : raster) :
  rect h w c data -> rect h w (S c) (map (map (fun px => px ++ [255])) data).
Proof.
  intros [Hlen Hrows]. unfold rect. rewrite map_fmap, length_fmap. split; [done|].
  apply Forall_fmap. eapply Forall_impl; [exact Hrows|]. simpl.
  intros row [Hrow Hpx]. rewrite map_fmap, length_fmap. split; [done|].
  apply Forall_fmap. eapply Forall_impl; [exact Hpx|]. simpl.
  intros px Hc. rewrite length_app. simpl. lia.
Qed.

Lemma rect_write_channel (h w c y0 x0 h' w' k : nat) (v : nat -> nat -> Z) (data : raster) :
  rect h w c data -> rect h w c (write_channel y0 x0 h' w' k v data).
Proof.
  intros [Hlen Hrows]. unfold rect, write_channel. rewrite length_imap. split; [done|].
  apply Forall_lookup. intros r row' Hr.
  apply list_lookup_imap_Some in Hr as (row & Hrow & ->).
  destruct (Forall_lookup_1 _ _ _ _ Hrows Hrow) as [Hw Hpx].
  case_bool_decide; [|done]. rewrite length_imap. split; [done|].
  apply Forall_lookup. intros c' px' Hc'.
  apply list_lookup_imap_Some in Hc' as (px & Hpx' & ->).
  pose proof (Forall_lookup_1 _ _ _ _ Hpx Hpx').
  case_bool_decide; [|done]. by rewrite length_insert.
Qed.

Section Mask.

Variable fill_covers : list contour -> Z -> Z -> bool.

Lemma drawContours_rows (image : matrix) (cs : list contour) (color : Z) :
  rows_of (cv2_drawContours fill_covers image cs color) = rows_of image.
Proof. unfold rows_of, cv2_drawContours. apply length_imap. Qed.

Lemma drawContours_cols (image : matrix) (cs : list contour) (color : Z) :
  cols_of (cv2_drawContours fill_covers image cs color) = cols_of image.
Proof.
  unfold cols_of, cv2_drawContours. destruct image as [|row rest]; [done|].
  simpl. apply length_imap.
Qed.

(** A sample of the drawn mask: the colour where the fill covers the
    cell, the old sample elsewhere. *)
Lemma drawContours_lookup (image : matrix) (cs : list contour) (color : Z) (r c : nat) :
  cv2_drawContours fill_covers image cs color !! r ≫= (fun row => row !! c)
  = (fun old => if fill_covers cs (Z.of_nat c) (Z.of_nat r) then color else old)
      <$> (image !! r ≫= fun row => row !! c).
Proof.
  unfold cv2_drawContours. rewrite list_lookup_imap.
  destruct (image !! r) as [row|]; [|done]. simpl.
  by rewrite list_lookup_imap.
Qed.

End Mask.

Lemma zeros_rows (h w : nat) : rows_of (zeros h w) = h.
Proof. unfold rows_of, zeros. apply length_replicate. Qed.

Lemma zeros_cols (h w : nat) : (0 < h)%nat -> cols_of (zeros h w) = w.
Proof.
  intros H. unfold cols_of, zeros. destruct h; [lia|]. simpl. apply length_replicate.
Qed.

Lemma zeros_lookup (h w r c : nat) :
  (r < h)%nat -> (c < w)%nat -> zeros h w !! r ≫= (fun row => row !! c) = Some 0.
Proof.
  intros Hr Hc. unfold zeros. rewrite lookup_replicate_2 by done. simpl.
  by apply lookup_replicate_2.
Qed.

(** ** Running the primitives *)

Lemma bind_ok {A B} (m : M A) (k : A -> M B) (w w' : world) (a : A) :
  m w = (Ok a, w') -> bind m k w = k a w'.
Proof. intros H. unfold bind. by rewrite H. Qed.

Lemma ndarray_copy_run (a : ndarray) (w : world) :
  ndarray_copy a w
  = (Ok (NdArray (next w) 0 0 (nd_h a) (nd_w a) (nd_c a)),
     World (<[next w := cells a (heap w)]> (heap w)) (S (next w)) (dirs w) (files w)
           (stdout w)).
Proof. reflexivity. Qed.

Lemma cvtColor_BGR2BGRA_run (a : ndarray) (w : world) :
  nd_h a <> 0%nat -> nd_w a <> 0%nat ->
  cv2_cvtColor_BGR2BGRA a w
  = (Ok (NdArray (next w) 0 0 (nd_h a) (nd_w a) 4),
     World (<[next w := map (map (fun px => px ++ [255])) (cells a (heap w))]> (heap w))
           (S (next w)) (dirs w) (files w) (stdout w)).
Proof.
  intros Hh Hw. unfold cv2_cvtColor_BGR2BGRA.
  rewrite !bool_decide_eq_false_2 by done. reflexivity.
Qed.

Lemma setitem_channel_run (a : ndarray) (k : nat) (m : matrix) (w : world) :
  rows_of m = nd_h a -> cols_of m = nd_w a ->
  setitem_channel a k m w
  = (Ok tt,
     World (alter (write_channel (nd_y0 a) (nd_x0 a) (nd_h a) (nd_w a) k (broadcast_get m))
                  (nd_base a) (heap w))
           (next w) (dirs w) (files w) (stdout w)).
Proof.
  intros Hr Hc. unfold setitem_channel, broadcasts.
  rewrite (bool_decide_eq_true_2 _ Hr), (bool_decide_eq_true_2 _ Hc). reflexivity.
Qed.

Lemma cells_whole (hp : gmap loc raster) (l : loc) (h w c c' : nat) (data : raster) :
  rect h w c data -> cells (NdArray l 0 0 h w c') (<[l := data]> hp) = data.
Proof.
  intros H. unfold cells. cbn [nd_base nd_y0 nd_x0 nd_h nd_w].
  rewrite lookup_insert_eq. simpl. by eapply window_full.
Qed.

Section Body.
Variable fill_covers : list contour -> Z -> Z -> bool.
Variable Path_join : string -> string -> string.

Lemma contour_mask_run (cnt : contour) (x1 y1 x2 y2 : Z) (w : world) :
  y1 <= y2 -> x1 <= x2 ->
  contour_mask fill_covers cnt x1 y1 x2 y2 w
  = (Ok (cv2_drawContours fill_covers (zeros (Z.to_nat (y2 - y1)) (Z.to_nat (x2 - x1)))
           [contour_sub cnt (x1, y1)] 255), w).
Proof.
  intros Hy Hx. unfold contour_mask, np_zeros.
  destruct (Z.ltb_spec (y2 - y1) 0), (Z.ltb_spec (x2 - x1) 0); try lia. reflexivity.
Qed.

Lemma export_object_exported (img : ndarray) (output_dir : string)
    (item : nat * contour) (w : world) :
  nd_valid (heap w) img -> item.2 <> [] ->
  in_image (Z.of_nat (nd_h img)) (Z.of_nat (nd_w img)) item.2 ->
  export_object fill_covers Path_join img output_dir item w
  = (Ok tt, exported fill_covers Path_join img output_dir item w).
Proof.
  destruct item as [idx cnt]. simpl. intros Hv Hne Him.
  unfold export_object, exported, object_rgba, object_mask, crop_cells, saved_line,
    object_path. simpl fst; simpl snd.
  destruct (cv2_boundingRect cnt) as [[[x y] bw] bh] eqn:Hbox.
  destruct (crop_box _ _ cnt) as [[[x1 y1] x2] y2] eqn:Hcrop.
  destruct (crop_box_bounds _ _ _ _ _ _ _ Hne Him Hcrop) as (Hx & Hx2 & Hy & Hy2).
  assert (0 <= y1 <= y2) as Hy' by lia. assert (0 <= x1 <= x2) as Hx' by lia.
  pose proof (getitem_slices_valid _ _ y1 y2 x1 x2 Hv Hy' Hy2 Hx' Hx2) as Hrect.
  assert (nd_h (getitem_slices img y1 y2 x1 x2) = Z.to_nat (y2 - y1) /\
          nd_w (getitem_slices img y1 y2 x1 x2) = Z.to_nat (x2 - x1)) as [Hh Hw].
  { rewrite getitem_slices_in_range by lia. done. }
  set (view := getitem_slices img y1 y2 x1 x2) in *.
  set (crop := cells view (heap w)) in *.
  set (mask := cv2_drawContours _ _ _ _).
  rewrite (bind_ok _ _ _ _ _ (ndarray_copy_run view w)).
  rewrite (bind_ok _ _ _ _ _ (contour_mask_run cnt x1 y1 x2 y2 _ (proj2 Hy') (proj2 Hx'))).
  fold mask. fold crop. rewrite Hh, Hw.
  assert (Z.to_nat (y2 - y1) <> 0%nat) as Hh0 by lia.
  assert (Z.to_nat (x2 - x1) <> 0%nat) as Hw0 by lia.
  rewrite (bind_ok _ _ _ _ _ (cvtColor_BGR2BGRA_run (NdArray _ _ _ _ _ _) _ Hh0 Hw0)).
  cbn [heap next dirs files stdout nd_h nd_w nd_c nd_base].
  assert (rows_of mask = Z.to_nat (y2 - y1)) as Hmr.
  { unfold mask. by rewrite drawContours_rows, zeros_rows. }
  assert (cols_of mask = Z.to_nat (x2 - x1)) as Hmc.
  { unfold mask. rewrite drawContours_cols, zeros_cols; [done|lia]. }
  rewrite (bind_ok _ _ _ _ _ (setitem_channel_run (NdArray _ _ _ _ _ _) 3 mask _ Hmr Hmc)).
  cbn [heap next dirs files stdout nd_h nd_w nd_c nd_base nd_y0 nd_x0].
  unfold bind, cv2_imwrite, print, written.
  cbn [heap next dirs files stdout nd_h nd_w nd_c nd_base nd_y0 nd_x0].
  rewrite (cells_whole _ _ _ _ _ _ _ Hrect), alter_insert_eq.
  rewrite (cells_whole _ _ _ _ _ _ _
             (rect_write_channel _ _ _ _ _ _ _ _ _ _ (rect_add_alpha _ _ _ _ Hrect))).
  by case_bool_decide.
Qed.
End Body.


(** ** The export loop *)

Lemma cells_agree (a : ndarray) (hp hp' : gmap loc raster) :
  hp' !! nd_base a = hp !! nd_base a -> cells a hp' = cells a hp.
Proof. intros H. unfold cells. by rewrite H. Qed.

Section Loop.
Variable fill_covers : list contour -> Z -> Z -> bool.
Variable Path_join : string -> string -> string.
Variable img : ndarray.
Variable output_dir : string.

#[local] Abbreviation step := (exported fill_covers Path_join img output_dir).
#[local] Abbreviation steps := (exported_all fill_covers Path_join img output_dir).

(** The buffers that exist before a turn of the loop are not touched. *)
Lemma exported_heap (item : nat * contour) (w : world) (l : loc) :
  (l < next w)%nat -> heap (step item w) !! l = heap w !! l.
Proof.
  intros H. unfold exported. cbn [heap].
  rewrite !lookup_insert_ne by lia. done.
Qed.

Lemma exported_live (item : nat * contour) (w : world) :
  live w img -> live (step item w) img.
Proof.
  intros [Hb Hv]. split; [unfold exported; simpl; lia|].
  unfold nd_valid. by rewrite (cells_agree _ _ _ (exported_heap item w _ Hb)).
Qed.

Lemma exported_all_snoc (items : list (nat * contour)) (item : nat * contour) (w : world) :
  steps (items ++ [item]) w = step item (steps items w).
Proof. unfold exported_all. by rewrite foldl_app. Qed.

Lemma exported_all_next (items : list (nat * contour)) (w : world) :
  next (steps items w) = (next w + 2 * length items)%nat.
Proof.
  revert w. induction items as [|item items IH]; intros w; simpl; [lia|].
  unfold exported_all in *. simpl. rewrite IH. simpl. lia.
Qed.

Lemma exported_all_heap (items : list (nat * contour)) (w : world) (l : loc) :
  (l < next w)%nat -> heap (steps items w) !! l = heap w !! l.
Proof.
  revert w. induction items as [|item items IH]; intros w Hl; [done|].
  unfold exported_all in *. simpl. rewrite IH by (simpl; lia).
  by apply exported_heap.
Qed.

Lemma exported_all_live (items : list (nat * contour)) (w : world) :
  live w img -> live (steps items w) img.
Proof.
  revert w. induction items as [|item items IH]; intros w H; [done|].
  unfold exported_all in *. simpl. by apply IH, exported_live.
Qed.

Lemma exported_all_dirs (items : list (nat * contour)) (w : world) :
  dirs (steps items w) = dirs w.
Proof.
  revert w. induction items as [|item items IH]; intros w; [done|].
  unfold exported_all in *. simpl. by rewrite IH.
Qed.

Lemma exported_all_stdout (items : list (nat * contour)) (w : world) :
  stdout (steps items w)
  = stdout w ++ map (saved_line Path_join output_dir) items.
Proof.
  revert w. induction items as [|item items IH]; intros w; simpl.
  - by rewrite app_nil_r.
  - unfold exported_all in *. simpl. rewrite IH. simpl. by rewrite <- app_assoc.
Qed.

Lemma written_is_Some (ds : gset string) (path p : string) (picture : raster)
    (fs : gmap string raster) :
  is_Some (written ds path picture fs !! p)
  <-> is_Some (fs !! p) \/ (p = path /\ path ∉ ds).
Proof.
  unfold written. case_bool_decide as Hd.
  - split; [auto|]. intros [H|[_ H]]; done.
  - rewrite lookup_insert_is_Some. split.
    + intros [->|[_ H]]; auto.
    + intros [H|[-> _]]; [|auto].
      destruct (decide (path = p)); auto.
Qed.

Lemma exported_all_files (items : list (nat * contour)) (w : world) (p : string) :
  is_Some (files (steps items w) !! p)
  <-> is_Some (files w !! p) \/
      (p ∈ map (fun item => object_path Path_join output_dir item.1) items /\ p ∉ dirs w).
Proof.
  revert w. induction items as [|item items IH]; intros w; simpl.
  - rewrite elem_of_nil. tauto.
  - unfold exported_all in *. simpl. rewrite IH. unfold exported at 1 2. cbn [files dirs].
    rewrite written_is_Some, elem_of_cons.
    split.
    + intros [[H|[-> H]]|[H1 H2]]; auto.
    + intros [H|[[->|H] H2]]; auto.
Qed.

(** The loop runs to its end, one turn after the other. *)
Lemma export_loop (items : list (nat * contour)) (w : world) :
  live w img -> Forall (drawable img) items ->
  for_each (export_object fill_covers Path_join img output_dir) items w
  = (Ok tt, steps items w).
Proof.
  intros Hlive Hitems. revert w Hlive.
  induction Hitems as [|item items [Hne Him] _ IH]; intros w Hlive; [done|].
  simpl. rewrite (bind_ok _ _ _ _ _
    (export_object_exported _ _ _ _ _ _ (proj2 Hlive) Hne Him)).
  apply IH. by apply exported_live.
Qed.
End Loop.


(** ** A whole run *)

Lemma Forall_enumerate {A} (P : A -> Prop) (l : list A) (start : nat) :
  Forall P l -> Forall (fun item => P item.2) (enumerate start l).
Proof.
  intros H. revert start. induction H as [|a l Ha _ IH]; intros start; simpl; constructor; auto.
Qed.

Lemma length_enumerate {A} (l : list A) (start : nat) : length (enumerate start l) = length l.
Proof. revert start. induction l as [|a l IH]; intros start; simpl; auto. Qed.

Lemma retained_valid_contours (contours : list contour) :
  Forall retained (valid_contours contours).
Proof.
  apply Forall_forall. intros cnt H.
  by apply elem_of_valid_contours in H as [_ H].
Qed.

Section WholeRun.
Variable decode_file : string -> option raster.
Variable bgr2gray : list Z -> Z.
Variable find_external : matrix -> list contour.
Variable fill_covers : list contour -> Z -> Z -> bool.
Variable Path_parent : string -> string.
Variable Path_join : string -> string -> string.

#[local] Abbreviation run :=
  (segment_objects decode_file bgr2gray find_external fill_covers Path_parent Path_join).
#[local] Abbreviation objects := (objects_of bgr2gray find_external).

Lemma loaded_img_live (image_path : string) (data : raster) (w : world) :
  decoded_ok data ->
  live (before_export bgr2gray find_external Path_parent Path_join image_path data w)
       (loaded_img data w).
Proof.
  intros (_ & _ & Hrect). split; [simpl; lia|].
  unfold nd_valid, loaded_img, before_export. cbn [heap nd_h nd_w nd_c].
  by rewrite (cells_whole _ _ _ _ _ _ _ Hrect).
Qed.

Lemma mkdir_exist_ok_run (image_path : string) (data : raster) (w : world) :
  can_mkdir w (output_dir_of Path_parent Path_join image_path) ->
  mkdir_exist_ok (output_dir_of Path_parent Path_join image_path)
    (before_mkdir bgr2gray find_external Path_parent Path_join image_path data w)
  = (Ok tt, before_export bgr2gray find_external Path_parent Path_join image_path data w).
Proof.
  intros Hcan. unfold mkdir_exist_ok, before_mkdir. cbn [heap next dirs files stdout].
  case_bool_decide as Hd.
  - unfold before_export at 2. do 2 f_equal.
    symmetry. apply subseteq_union_1_L. by apply singleton_subseteq_l.
  - destruct Hcan as [Hcan|Hcan]; [done|].
    rewrite bool_decide_eq_false_2; [done|]. rewrite Hcan. by intros [? ?].
Qed.

Lemma mkdir_exist_ok_stops (image_path : string) (data : raster) (w : world) :
  ~ can_mkdir w (output_dir_of Path_parent Path_join image_path) ->
  mkdir_exist_ok (output_dir_of Path_parent Path_join image_path)
    (before_mkdir bgr2gray find_external Path_parent Path_join image_path data w)
  = (Raise FileExistsError,
     before_mkdir bgr2gray find_external Path_parent Path_join image_path data w).
Proof.
  intros Hcan. unfold mkdir_exist_ok, before_mkdir. cbn [heap next dirs files stdout].
  rewrite bool_decide_eq_false_2 by (intros H; apply Hcan; by left).
  rewrite bool_decide_eq_true_2; [done|].
  destruct (files w !! _) eqn:Hf; [done|]. exfalso. apply Hcan. by right.
Qed.

(** A run on a readable image, up to the call of [mkdir]. *)
Lemma segment_objects_to_mkdir (image_path : string) (data : raster) (w : world) :
  decode_file image_path = Some data -> decoded_ok data ->
  run image_path w
  = (mkdir_exist_ok (output_dir_of Path_parent Path_join image_path) ;;;
     for_each (export_object fill_covers Path_join (loaded_img data w)
                 (output_dir_of Path_parent Path_join image_path))
              (enumerate 1 (objects data)) ;;;
     print (newline +:+ "Done! Saved " +:+ str_nat (length (objects data)) +:+ " parts to "
            +:+ output_dir_of Path_parent Path_join image_path) ;;;
     ret PyNone)
    (before_mkdir bgr2gray find_external Path_parent Path_join image_path data w).
Proof.
  intros Hdec Hok. pose proof Hok as (Hne & Hne' & Hrect).
  unfold segment_objects, cv2_imread. rewrite Hdec.
  unfold bind at 1. unfold bind at 1. unfold alloc at 1. unfold ret at 1.
  unfold bind at 1. unfold print at 1.
  unfold bind at 1. unfold cv2_cvtColor_BGR2GRAY.
  cbn [nd_h nd_w heap next dirs files stdout].
  rewrite !bool_decide_eq_false_2
    by (rewrite length_zero_iff_nil; done).
  cbn [orb]. unfold bind at 1. unfold ndarray_read at 1. unfold ret at 1.
  cbn [heap next dirs files stdout].
  rewrite (cells_whole _ _ _ _ _ _ _ Hrect).
  unfold bind at 1. unfold print at 1.
  unfold bind at 1. unfold print at 1.
  cbn [heap next dirs files stdout].
  rewrite <- !app_assoc. cbn [app].
  reflexivity.
Qed.

Lemma objects_drawable (data : raster) (w : world) :
  Forall (in_image (Z.of_nat (length data)) (Z.of_nat (length (hd [] data)))) (objects data) ->
  Forall (drawable (loaded_img data w)) (enumerate 1 (objects data)).
Proof.
  intros Hin. apply Forall_forall. intros item Hitem.
  pose proof (Forall_enumerate _ _ 1%nat Hin) as H1.
  pose proof (Forall_enumerate _ _ 1%nat (retained_valid_contours
    (cv2_findContours find_external (clean_noise (binarize (map (map bgr2gray) data)))))) as H2.
  rewrite Forall_forall in H1, H2. split.
  - apply retained_nonempty. apply (H2 item Hitem).
  - apply (H1 item Hitem).
Qed.

(** A run on a readable image whose retained contours lie in the image,
    when the output directory can be made. *)
Lemma segment_objects_run (image_path : string) (data : raster) (w : world) :
  decode_file image_path = Some data -> decoded_ok data ->
  Forall (in_image (Z.of_nat (length data)) (Z.of_nat (length (hd [] data)))) (objects data) ->
  can_mkdir w (output_dir_of Path_parent Path_join image_path) ->
  run image_path w
  = (Ok PyNone,
     finished bgr2gray find_external fill_covers Path_parent Path_join image_path data w).
Proof.
  intros Hdec Hok Hin Hcan.
  rewrite (segment_objects_to_mkdir _ _ _ Hdec Hok).
  rewrite (bind_ok _ _ _ _ _ (mkdir_exist_ok_run image_path data w Hcan)).
  rewrite (bind_ok _ _ _ _ _ (export_loop fill_covers Path_join _ _ _ _
             (loaded_img_live image_path data w Hok) (objects_drawable data w Hin))).
  reflexivity.
Qed.

(** A run on a readable image when something that is not a directory has
    the name of the output directory: [mkdir] raises and the run ends
    there. *)
Lemma segment_objects_stops (image_path : string) (data : raster) (w : world) :
  decode_file image_path = Some data -> decoded_ok data ->
  ~ can_mkdir w (output_dir_of Path_parent Path_join image_path) ->
  run image_path w
  = (Raise FileExistsError,
     before_mkdir bgr2gray find_external Path_parent Path_join image_path data w).
Proof.
  intros Hdec Hok Hcan.
  rewrite (segment_objects_to_mkdir _ _ _ Hdec Hok).
  unfold bind at 1. by rewrite (mkdir_exist_ok_stops image_path data w Hcan).
Qed.

End WholeRun.

Lemma picture_ok : decoded_ok Demo.picture.
Proof.
  split; [done|]. split; [done|].
  apply (bool_decide_unpack _). vm_compute. reflexivity.
Qed.

Lemma blank_ok : decoded_ok Demo.blank.
Proof.
  split; [done|]. split; [done|].
  apply (bool_decide_unpack _). vm_compute. reflexivity.
Qed.


(** ** The picture written for an object *)

Lemma pixel_write_channel (h w k r c : nat) (v : nat -> nat -> Z) (data : raster) :
  (r < h)%nat -> (c < w)%nat ->
  pixel (write_channel 0 0 h w k v data) r c
  = (fun px => <[k := v r c]> px) <$> pixel data r c.
Proof.
  intros Hr Hc. unfold pixel, write_channel. rewrite list_lookup_imap.
  destruct (data !! r) as [row|]; [|done]. simpl.
  rewrite bool_decide_eq_true_2 by lia. rewrite list_lookup_imap.
  destruct (row !! c) as [px|]; [|done]. simpl.
  rewrite bool_decide_eq_true_2 by lia. by rewrite !Nat.sub_0_r.
Qed.

Lemma pixel_add_alpha (data : raster) (r c : nat) :
  pixel (map (map (fun px => px ++ [255])) data) r c
  = (fun px => px ++ [255]) <$> pixel data r c.
Proof.
  unfold pixel. rewrite (map_fmap _ data), list_lookup_fmap.
  destruct (data !! r) as [row|]; [|done]. simpl.
  by rewrite (map_fmap _ row), list_lookup_fmap.
Qed.

Lemma pixel_rect (h w c r col : nat) (data : raster) :
  rect h w c data -> (r < h)%nat -> (col < w)%nat ->
  exists px, pixel data r col = Some px /\ length px = c.
Proof.
  intros [Hlen Hrows] Hr Hc. unfold pixel.
  destruct (lookup_lt_is_Some_2 data r ltac:(lia)) as [row Hrow]. rewrite Hrow. simpl.
  destruct (Forall_lookup_1 _ _ _ _ Hrows Hrow) as [Hw Hpx].
  destruct (lookup_lt_is_Some_2 row col ltac:(lia)) as [px Hp]. rewrite Hp.
  exists px. split; [done|]. apply (Forall_lookup_1 _ _ _ _ Hpx Hp).
Qed.

(** With equal shapes broadcasting reads the sample of the same cell. *)
Lemma broadcast_get_same (m : matrix) (h w r c : nat) :
  rows_of m = h -> cols_of m = w -> (r < h)%nat -> (c < w)%nat ->
  broadcast_get m r c = default 0 (m !! r ≫= fun row => row !! c).
Proof.
  intros Hh Hw Hr Hc. unfold broadcast_get.
  case_bool_decide; case_bool_decide;
    repeat match goal with
    | H : rows_of m = 1%nat |- _ => assert (r = 0)%nat as -> by lia; clear H
    | H : cols_of m = 1%nat |- _ => assert (c = 0)%nat as -> by lia; clear H
    end; done.
Qed.

Section Alpha.
Variable fill_covers : list contour -> Z -> Z -> bool.
Variable Path_join : string -> string -> string.

Lemma object_mask_sample (img : ndarray) (cnt : contour) (x1 y1 x2 y2 : Z) (r c : nat) :
  crop_box (Z.of_nat (nd_h img)) (Z.of_nat (nd_w img)) cnt = (x1, y1, x2, y2) ->
  (r < Z.to_nat (y2 - y1))%nat -> (c < Z.to_nat (x2 - x1))%nat ->
  broadcast_get (object_mask fill_covers img cnt) r c
  = if fill_covers [map (fun p => (fst p - x1, snd p - y1)) cnt] (Z.of_nat c) (Z.of_nat r)
    then 255 else 0.
Proof.
  intros Hcrop Hr Hc. unfold object_mask, shape. cbn [fst snd]. rewrite Hcrop.
  rewrite (broadcast_get_same _ (Z.to_nat (y2 - y1)) (Z.to_nat (x2 - x1))); try done.
  - rewrite drawContours_lookup, zeros_lookup by done. simpl. by destruct (fill_covers _ _ _).
  - by rewrite drawContours_rows, zeros_rows.
  - rewrite drawContours_cols, zeros_cols; [done|lia].
Qed.

(** C3: for every exported object (a retained contour of the image), the
    RGBA image the loop builds has the shape of the crop and four channels,
    and each of its pixels has alpha 255 if the contour, translated into
    the frame of the crop by subtracting (x1, y1) from each of its points
    and filled solid, covers the pixel, and alpha 0 otherwise.  That image
    is what [imwrite] puts in the file [part_NN.png]; when that name is
    taken by a directory no file is written and the files stay as they
    were. *)
Theorem exported_alpha_is_filled_silhouette (img : ndarray) (output_dir : string)
    (idx : nat) (cnt : contour) (w : world) (x1 y1 x2 y2 : Z) :
  nd_valid (heap w) img -> nd_c img = 3%nat ->
  retained cnt -> in_image (Z.of_nat (nd_h img)) (Z.of_nat (nd_w img)) cnt ->
  crop_box (Z.of_nat (nd_h img)) (Z.of_nat (nd_w img)) cnt = (x1, y1, x2, y2) ->
  exists w' rgba,
    export_object fill_covers Path_join img output_dir (idx, cnt) w = (Ok tt, w') /\
    heap w' !! S (next w) = Some rgba /\
    (Path_join output_dir ("part_" +:+ fmt_02d idx +:+ ".png") ∉ dirs w ->
     files w' !! Path_join output_dir ("part_" +:+ fmt_02d idx +:+ ".png") = Some rgba) /\
    (Path_join output_dir ("part_" +:+ fmt_02d idx +:+ ".png") ∈ dirs w ->
     files w' = files w) /\
    rect (Z.to_nat (y2 - y1)) (Z.to_nat (x2 - x1)) 4 rgba /\
    forall r c, (r < Z.to_nat (y2 - y1))%nat -> (c < Z.to_nat (x2 - x1))%nat ->
      exists px,
        pixel rgba r c = Some px /\
        px !! 3%nat
        = Some (if fill_covers [map (fun p => (fst p - x1, snd p - y1)) cnt]
                     (Z.of_nat c) (Z.of_nat r)
                then 255 else 0).
Proof.
  intros Hv Hc3 Hret Him Hcrop.
  pose proof (retained_nonempty _ Hret) as Hne.
  destruct (crop_box_bounds _ _ _ _ _ _ _ Hne Him Hcrop) as (Hx & Hx2 & Hy & Hy2).
  assert (rect (Z.to_nat (y2 - y1)) (Z.to_nat (x2 - x1)) 3
               (crop_cells img (heap w) cnt)) as Hrect.
  { unfold crop_cells, shape. cbn [fst snd]. rewrite Hcrop, <- Hc3.
    apply getitem_slices_valid; [done|lia..]. }
  eexists _, (object_rgba fill_covers img (heap w) cnt).
  split; [|split; [|split; [|split; [|split]]]].
  - by apply (export_object_exported fill_covers Path_join img output_dir (idx, cnt)).
  - unfold exported. cbn [heap]. apply lookup_insert_eq.
  - intros Hfree. unfold exported, written, object_path. cbn [files fst snd].
    rewrite bool_decide_eq_false_2 by done. apply lookup_insert_eq.
  - intros Hdir. unfold exported, written, object_path. cbn [files fst snd].
    by rewrite bool_decide_eq_true_2.
  - unfold object_rgba, shape. cbn [fst snd]. rewrite Hcrop.
    by apply rect_write_channel, rect_add_alpha.
  - intros r c Hr Hc.
    destruct (pixel_rect _ _ _ r c _ Hrect Hr Hc) as (px & Hpx & Hlen).
    exists (<[3%nat := broadcast_get (object_mask fill_covers img cnt) r c]> (px ++ [255])).
    split.
    + unfold object_rgba, shape. cbn [fst snd]. rewrite Hcrop.
      rewrite pixel_write_channel, pixel_add_alpha, Hpx by done. done.
    + rewrite list_lookup_insert_eq by (rewrite length_app; simpl; lia).
      f_equal. by apply (object_mask_sample img cnt x1 y1 x2 y2).
Qed.

End Alpha.

Lemma demo_img_valid : nd_valid (heap Demo.loaded) Demo.img.
Proof. unfold nd_valid. apply (bool_decide_unpack _). vm_compute. reflexivity. Qed.

Lemma demo_square_in_image : in_image 48 48 Demo.square.
Proof. apply (bool_decide_unpack _). vm_compute. reflexivity. Qed.

Lemma demo_wide_valid : nd_valid (heap Demo.loaded_wide) Demo.img_wide.
Proof. unfold nd_valid. apply (bool_decide_unpack _). vm_compute. reflexivity. Qed.

Lemma demo_offcentre_in_image : in_image 80 80 Demo.offcentre.
Proof. apply (bool_decide_unpack _). vm_compute. reflexivity. Qed.

(** The object of the 80x80 picture: its crop starts at (5, 5), so the
    contour is moved by five columns and five rows before it is filled. *)
Lemma exported_alpha_is_filled_silhouette_witness :
  exists w' rgba,
    export_object Demo.fill_covers Demo.Path_join Demo.img_wide "segmented_parts"
      (1%nat, Demo.offcentre) Demo.loaded_wide = (Ok tt, w') /\
    heap w' !! S (next Demo.loaded_wide) = Some rgba /\
    (Demo.Path_join "segmented_parts" ("part_" +:+ fmt_02d 1 +:+ ".png")
       ∉ dirs Demo.loaded_wide ->
     files w' !! Demo.Path_join "segmented_parts" ("part_" +:+ fmt_02d 1 +:+ ".png")
     = Some rgba) /\
    (Demo.Path_join "segmented_parts" ("part_" +:+ fmt_02d 1 +:+ ".png")
       ∈ dirs Demo.loaded_wide ->
     files w' = files Demo.loaded_wide) /\
    rect (Z.to_nat (80 - 5)) (Z.to_nat (80 - 5)) 4 rgba /\
    forall r c, (r < Z.to_nat (80 - 5))%nat -> (c < Z.to_nat (80 - 5))%nat ->
      exists px,
        pixel rgba r c = Some px /\
        px !! 3%nat
        = Some (if Demo.fill_covers [map (fun p => (fst p - 5, snd p - 5)) Demo.offcentre]
                     (Z.of_nat c) (Z.of_nat r)
                then 255 else 0).
Proof.
  apply (exported_alpha_is_filled_silhouette Demo.fill_covers Demo.Path_join Demo.img_wide
           "segmented_parts" 1 Demo.offcentre Demo.loaded_wide 5 5 80 80).
  - exact demo_wide_valid.
  - reflexivity.
  - reflexivity.
  - exact demo_offcentre_in_image.
  - reflexivity.
Defined.

(** ** Private copies *)

(** A write through an array object touches its buffer and no other. *)
Lemma setitem_sample_frame (a : ndarray) (r c k : nat) (v : Z) (w : world) (l : loc) :
  l <> nd_base a -> heap (setitem_sample a r c k v w).2 !! l = heap w !! l.
Proof. intros H. unfold setitem_sample. cbn [snd heap]. by apply lookup_alter_ne. Qed.

Lemma setitem_channel_frame (a : ndarray) (k : nat) (m : matrix) (w : world) (l : loc) :
  l <> nd_base a -> heap (setitem_channel a k m w).2 !! l = heap w !! l.
Proof.
  intros H. unfold setitem_channel. destruct (_ && _); [|done].
  cbn [snd heap]. by apply lookup_alter_ne.
Qed.

(** A write through a view lands in the array it was taken from: without
    [.copy()] the crop would not be private. *)
Example view_shares_buffer :
  let w := World {[0%nat := [[[1; 2; 3]; [4; 5; 6]]; [[7; 8; 9]; [10; 11; 12]]]]} 1 ∅ ∅ [] in
  let img := NdArray 0 0 0 2 2 3 in
  let view := getitem_slices img 1 2 1 2 in
  pixel (cells img (heap w)) 1 1 = Some [10; 11; 12] /\
  pixel (cells img (heap (setitem_sample view 0 0 0 99 w).2)) 1 1 = Some [99; 11; 12].
Proof. vm_compute. done. Qed.

Section Private.
Variable fill_covers : list contour -> Z -> Z -> bool.
Variable Path_join : string -> string -> string.

Lemma exported_all_heap_ok (img : ndarray) (output_dir : string)
    (items : list (nat * contour)) (w : world) :
  heap_ok w -> heap_ok (exported_all fill_covers Path_join img output_dir items w).
Proof.
  revert w. induction items as [|item items IH]; intros w Hok; [done|].
  unfold exported_all in *. simpl. apply IH.
  intros l Hl. unfold exported in *. cbn [heap next] in *.
  rewrite !lookup_insert_ne by lia. apply Hok. lia.
Qed.

(** C9: in every turn of the export loop the crop is a copy, in a buffer
    of its own, of the region [y1:y2, x1:x2] of the source raster.  The
    turn hands out two buffers that did not exist before, one for the crop
    and one for its BGRA version, and changes no other; when the turn is
    over the crop's buffer holds the cells of the region, although the
    alpha channel has been overwritten in between.  A write through the
    crop, to one sample or to a whole channel, leaves the source raster and
    every other buffer (so every other crop) as they were.  The export stage
    runs to its end and leaves the source raster, and every buffer that
    existed before it, as they were. *)
Theorem crops_are_private_copies (img : ndarray) (output_dir : string)
    (items : list (nat * contour)) (w : world) :
  heap_ok w -> live w img -> Forall (drawable img) items ->
  (exists w',
     for_each (export_object fill_covers Path_join img output_dir) items w = (Ok tt, w') /\
     cells img (heap w') = cells img (heap w) /\
     forall l, (l < next w)%nat -> heap w' !! l = heap w !! l) /\
  (forall pre item post x1 y1 x2 y2,
     items = pre ++ item :: post ->
     crop_box (Z.of_nat (nd_h img)) (Z.of_nat (nd_w img)) item.2 = (x1, y1, x2, y2) ->
     exists wi wi',
       for_each (export_object fill_covers Path_join img output_dir) pre w = (Ok tt, wi) /\
       export_object fill_covers Path_join img output_dir item wi = (Ok tt, wi') /\
       next wi = (next w + 2 * length pre)%nat /\
       next wi' = S (S (next wi)) /\
       heap wi !! next wi = None /\
       heap wi !! S (next wi) = None /\
       next wi <> nd_base img /\
       (forall l, l <> next wi -> l <> S (next wi) -> heap wi' !! l = heap wi !! l) /\
       let roi := NdArray (next wi) 0 0 (Z.to_nat (y2 - y1)) (Z.to_nat (x2 - x1))
                          (nd_c img) in
       nd_valid (heap wi') roi /\
       (forall r c, (r < Z.to_nat (y2 - y1))%nat -> (c < Z.to_nat (x2 - x1))%nat ->
          pixel (cells roi (heap wi')) r c
          = pixel (cells img (heap w)) (Z.to_nat y1 + r) (Z.to_nat x1 + c)) /\
       (forall (r c k : nat) (v : Z) (m : matrix),
          cells img (heap (setitem_sample roi r c k v wi').2) = cells img (heap w) /\
          cells img (heap (setitem_channel roi k m wi').2) = cells img (heap w) /\
          forall l, l <> nd_base roi ->
            heap (setitem_sample roi r c k v wi').2 !! l = heap wi' !! l /\
            heap (setitem_channel roi k m wi').2 !! l = heap wi' !! l)).
Proof.
  intros Hok [Hbase Hv] Hitems. split.
  - eexists. split; [by apply export_loop|]. split.
    + apply cells_agree. by apply exported_all_heap.
    + intros l Hl. by apply exported_all_heap.
  - intros pre item post x1 y1 x2 y2 -> Hcrop.
    apply Forall_app in Hitems as [Hpre Hitems].
    apply Forall_cons in Hitems as [[Hne Him] _].
    destruct (crop_box_bounds _ _ _ _ _ _ _ Hne Him Hcrop) as (Hx & Hx2 & Hy & Hy2).
    set (wi := exported_all fill_covers Path_join img output_dir pre w).
    assert (next wi = (next w + 2 * length pre)%nat) as Hnext
      by apply exported_all_next.
    assert (cells img (heap wi) = cells img (heap w)) as Hsame.
    { apply cells_agree. by apply exported_all_heap. }
    assert (nd_valid (heap wi) img) as Hvi by (unfold nd_valid; by rewrite Hsame).
    assert (heap_ok wi) as Hoki by (by apply exported_all_heap_ok).
    assert (0 <= y1 <= y2) as Hy' by lia. assert (0 <= x1 <= x2) as Hx' by lia.
    pose proof (getitem_slices_valid _ _ y1 y2 x1 x2 Hvi Hy' Hy2 Hx' Hx2) as Hrect.
    assert (crop_cells img (heap wi) item.2
            = cells (getitem_slices img y1 y2 x1 x2) (heap wi)) as Hcells.
    { unfold crop_cells, shape. cbn [fst snd]. by rewrite Hcrop. }
    assert (next wi <> nd_base img) as Hfresh by lia.
    set (wi' := exported fill_covers Path_join img output_dir item wi).
    assert (forall l, l <> next wi -> l <> S (next wi) -> heap wi' !! l = heap wi !! l)
      as Hframe.
    { intros l H1 H2. unfold wi', exported. cbn [heap].
      by rewrite !lookup_insert_ne by done. }
    assert (cells img (heap wi') = cells img (heap w)) as Hsame'.
    { rewrite <- Hsame. apply cells_agree, Hframe; lia. }
    assert (cells (NdArray (next wi) 0 0 (Z.to_nat (y2 - y1)) (Z.to_nat (x2 - x1)) (nd_c img))
                  (heap wi')
            = cells (getitem_slices img y1 y2 x1 x2) (heap wi)) as Hroi.
    { rewrite (cells_agree _ (<[next wi := crop_cells img (heap wi) item.2]> (heap wi))).
      - rewrite Hcells. by apply (cells_whole _ _ _ _ _ _ _ Hrect).
      - unfold wi', exported. cbn [heap nd_base].
        rewrite lookup_insert_ne by lia. by rewrite !lookup_insert_eq. }
    exists wi, wi'. split; [by apply export_loop|].
    split; [by apply export_object_exported|].
    split; [done|]. split; [done|].
    split; [apply Hoki; lia|]. split; [apply Hoki; lia|].
    split; [done|]. split; [done|].
    cbn zeta. split; [|split].
    + unfold nd_valid. cbn [nd_h nd_w nd_c]. by rewrite Hroi.
    + intros r c Hr Hc. rewrite Hroi.
      rewrite cells_getitem_slices, Hsame by lia.
      unfold pixel. by apply pixel_window.
    + intros r c k v m. split; [|split].
      * rewrite <- Hsame'. by apply cells_agree, setitem_sample_frame.
      * rewrite <- Hsame'. by apply cells_agree, setitem_channel_frame.
      * intros l Hl. split; [by apply setitem_sample_frame|by apply setitem_channel_frame].
Qed.


End Private.

Lemma demo_loaded_heap_ok : heap_ok Demo.loaded.
Proof. intros l Hl. apply lookup_singleton_ne. simpl in Hl. lia. Qed.

Lemma demo_square_drawable : Forall (drawable Demo.img) [(1%nat, Demo.square)].
Proof.
  constructor; [|constructor]. split; [discriminate|]. exact demo_square_in_image.
Qed.

Lemma crops_are_private_copies_witness :
  exists w',
    for_each (export_object Demo.fill_covers Demo.Path_join Demo.img "segmented_parts")
      [(1%nat, Demo.square)] Demo.loaded = (Ok tt, w') /\
    cells Demo.img (heap w') = cells Demo.img (heap Demo.loaded) /\
    forall l, (l < next Demo.loaded)%nat -> heap w' !! l = heap Demo.loaded !! l.
Proof.
  apply (crops_are_private_copies Demo.fill_covers Demo.Path_join Demo.img
           "segmented_parts" [(1%nat, Demo.square)] Demo.loaded).
  - exact demo_loaded_heap_ok.
  - split; [simpl; lia|exact demo_img_valid].
  - exact demo_square_drawable.
Defined.


(** ** Outcome of a call *)

Section Claims.
Variable decode_file : string -> option raster.
Variable bgr2gray : list Z -> Z.
Variable find_external : matrix -> list contour.
Variable fill_covers : list contour -> Z -> Z -> bool.
Variable Path_parent : string -> string.
Variable Path_join : string -> string -> string.

#[local] Abbreviation run :=
  (segment_objects decode_file bgr2gray find_external fill_covers Path_parent Path_join).
#[local] Abbreviation objects := (objects_of bgr2gray find_external).
#[local] Abbreviation output_dir := (output_dir_of Path_parent Path_join).

(** C6: if the image cannot be read, [segment_objects] prints the line
    "Error: Could not read image <path>" and returns [None] without
    raising; the store, the directories and the files are as before: no
    output directory is created and no file is written. *)
Theorem unreadable_image_is_reported (image_path : string) (w : world) :
  decode_file image_path = None ->
  run image_path w
  = (Ok PyNone,
     World (heap w) (next w) (dirs w) (files w)
           (stdout w ++ ["Error: Could not read image " +:+ image_path])).
Proof. intros H. unfold segment_objects, cv2_imread. rewrite H. reflexivity. Qed.

(** C7, amended: if the image loads and no contour passes the area
    filter, and the name [segmented_parts] is free or that of a directory,
    the call returns normally; the output directory exists afterwards (it
    is made if it was not there), no file has been written, and the console
    reports 0 valid objects and, last, 0 saved parts.  If the name is that
    of something else, [mkdir] raises [FileExistsError]: the directory is
    not made and the summary is not printed. *)
Theorem no_object_is_not_an_error (image_path : string) (data : raster) (w : world) :
  decode_file image_path = Some data -> decoded_ok data -> objects data = [] ->
  (can_mkdir w (output_dir image_path) ->
   exists w',
     run image_path w = (Ok PyNone, w') /\
     output_dir image_path ∈ dirs w' /\
     dirs w' = {[output_dir image_path]} ∪ dirs w /\
     files w' = files w /\
     exists shape_line contours_line,
       stdout w'
       = stdout w ++ [shape_line; contours_line; "Found 0 valid objects (area > 1000)";
                      newline +:+ "Done! Saved 0 parts to " +:+ output_dir image_path]) /\
  (~ can_mkdir w (output_dir image_path) ->
   exists w',
     run image_path w = (Raise FileExistsError, w') /\
     ~ output_dir image_path ∈ dirs w' /\
     dirs w' = dirs w /\
     files w' = files w /\
     exists shape_line contours_line,
       stdout w'
       = stdout w ++ [shape_line; contours_line; "Found 0 valid objects (area > 1000)"]).
Proof.
  intros Hdec Hok Hnone. split; intros Hcan.
  - eexists. split.
    + apply segment_objects_run; [done..| |done]. rewrite Hnone. constructor.
    + unfold finished, before_export, exported_all. rewrite Hnone.
      cbn [enumerate foldl heap next dirs files stdout length].
      split; [apply elem_of_union_l, elem_of_singleton; reflexivity|].
      split; [reflexivity|]. split; [reflexivity|].
      eexists _, _. rewrite <- app_assoc. reflexivity.
  - eexists. split; [by apply segment_objects_stops|].
    unfold before_mkdir, before_export. rewrite Hnone.
    cbn [heap next dirs files stdout length].
    split; [intros H; apply Hcan; by left|].
    split; [reflexivity|]. split; [reflexivity|].
    eexists _, _. reflexivity.
Qed.

(** C1, amended: on every path on which loading succeeds (and whose
    retained contours lie in the image) [segment_objects] never returns a
    list.  When the output directory can be made it returns [None]: the
    saved files are those written to disk, one per exported object whose
    name is not that of a directory, and all of them are reported on the
    console in export order.  When the name of the output directory is
    taken by something else the call raises [FileExistsError] and no file
    is written. *)
Theorem segment_objects_returns_none (image_path : string) (data : raster) (w : world) :
  decode_file image_path = Some data -> decoded_ok data ->
  Forall (in_image (Z.of_nat (length data)) (Z.of_nat (length (hd [] data)))) (objects data) ->
  (forall l, (run image_path w).1 <> Ok (PyList l)) /\
  (can_mkdir w (output_dir image_path) ->
   exists w',
     run image_path w = (Ok PyNone, w') /\
     (forall p, is_Some (files w' !! p) <->
                is_Some (files w !! p) \/
                (p ∈ saved_files bgr2gray find_external Path_parent Path_join image_path data /\
                 p ∉ {[output_dir image_path]} ∪ dirs w)) /\
     length (saved_files bgr2gray find_external Path_parent Path_join image_path data)
     = length (objects data) /\
     exists shape_line contours_line valid_line done_line,
       stdout w'
       = stdout w ++ [shape_line; contours_line; valid_line]
           ++ map (saved_line Path_join (output_dir image_path)) (enumerate 1 (objects data))
           ++ [done_line]) /\
  (~ can_mkdir w (output_dir image_path) ->
   exists w',
     run image_path w = (Raise FileExistsError, w') /\
     files w' = files w /\
     dirs w' = dirs w /\
     exists shape_line contours_line valid_line,
       stdout w' = stdout w ++ [shape_line; contours_line; valid_line]).
Proof.
  intros Hdec Hok Hin.
  assert (can_mkdir w (output_dir image_path) ->
          run image_path w
          = (Ok PyNone, finished bgr2gray find_external fill_covers Path_parent Path_join
                          image_path data w)) as Hrun
    by (intros Hcan; by apply segment_objects_run).
  assert (~ can_mkdir w (output_dir image_path) ->
          run image_path w
          = (Raise FileExistsError,
             before_mkdir bgr2gray find_external Path_parent Path_join image_path data w))
    as Hstop by (intros Hcan; by apply segment_objects_stops).
  split; [|split].
  - intros l. destruct (decide (can_mkdir w (output_dir image_path))) as [Hcan|Hcan].
    + by rewrite (Hrun Hcan).
    + by rewrite (Hstop Hcan).
  - intros Hcan. eexists. split; [exact (Hrun Hcan)|].
    unfold finished. cbn [files stdout]. split; [|split].
    + intros p. rewrite exported_all_files. reflexivity.
    + unfold saved_files. by rewrite length_map, length_enumerate.
    + rewrite exported_all_stdout. unfold before_export. cbn [stdout].
      eexists _, _, _, _. rewrite <- !app_assoc. reflexivity.
  - intros Hcan. eexists. split; [exact (Hstop Hcan)|].
    unfold before_mkdir, before_export. cbn [files dirs stdout].
    split; [reflexivity|]. split; [reflexivity|].
    eexists _, _, _. reflexivity.
Qed.

End Claims.

(** C1, as stated, fails: on the demo picture one file is saved and the
    call returns [None], not the list of saved files. *)
Lemma segment_objects_does_not_return_files :
  Demo.decode_file "ellis-tomte.jpg" = Some Demo.picture /\
  saved_files Demo.bgr2gray Demo.find_external Demo.Path_parent Demo.Path_join
    "ellis-tomte.jpg" Demo.picture = ["segmented_parts/part_01.png"] /\
  (Demo.run "ellis-tomte.jpg").1 = Ok PyNone /\
  (Demo.run "ellis-tomte.jpg").1 <> Ok (PyList ["segmented_parts/part_01.png"]).
Proof.
  split; [reflexivity|]. split; [vm_compute; reflexivity|].
  assert ((Demo.run "ellis-tomte.jpg").1 = Ok PyNone) as H by (vm_compute; reflexivity).
  split; [exact H|]. rewrite H. discriminate.
Qed.

(** C7, as stated, fails: the blank picture loads and no contour passes
    the filter, but where [segmented_parts] is a regular file the call
    raises [FileExistsError]; no directory is made and no summary is
    printed. *)
Lemma no_object_raises_when_name_is_taken :
  let out := segment_objects Demo.decode_file Demo.bgr2gray Demo.find_external
               Demo.fill_covers Demo.Path_parent Demo.Path_join "blank.png" Demo.blocked in
  Demo.decode_file "blank.png" = Some Demo.blank /\
  objects_of Demo.bgr2gray Demo.find_external Demo.blank = [] /\
  is_Some (files Demo.blocked !! "segmented_parts") /\
  out.1 = Raise FileExistsError /\
  dirs out.2 = ∅ /\
  stdout out.2
  = ["Image shape: (8, 8, 3)"; "Found 0 contours"; "Found 0 valid objects (area > 1000)"].
Proof.
  cbn zeta. split; [reflexivity|]. split; [vm_compute; reflexivity|].
  split; [by eexists|]. split; [vm_compute; reflexivity|].
  split; vm_compute; reflexivity.
Qed.

(** Where [part_01.png] is a directory, [imwrite] returns [False], which
    the script does not look at: the run on the demo picture returns
    [None] and reports the part as saved, but no file is written. *)
Example nothing_is_written_over_a_directory :
  let out := segment_objects Demo.decode_file Demo.bgr2gray Demo.find_external
               Demo.fill_covers Demo.Path_parent Demo.Path_join "ellis-tomte.jpg"
               Demo.occupied in
  "segmented_parts/part_01.png" ∈ dirs Demo.occupied /\
  out.1 = Ok PyNone /\
  files out.2 = ∅ /\
  dirs out.2 = dirs Demo.occupied /\
  stdout out.2
  = ["Image shape: (48, 48, 3)"; "Found 1 contours"; "Found 1 valid objects (area > 1000)";
     "Saved part 1: segmented_parts/part_01.png (size: 36x36)";
     newline +:+ "Done! Saved 1 parts to segmented_parts"].
Proof.
  cbn zeta. split; [apply (bool_decide_unpack _); vm_compute; reflexivity|].
  split; [vm_compute; reflexivity|].
  split; [vm_compute; reflexivity|].
  split; vm_compute; reflexivity.
Qed.

Lemma demo_objects_in_image :
  Forall (in_image (Z.of_nat (length Demo.picture)) (Z.of_nat (length (hd [] Demo.picture))))
         (objects_of Demo.bgr2gray Demo.find_external Demo.picture).
Proof. apply (bool_decide_unpack _). vm_compute. reflexivity. Qed.

Lemma unreadable_image_is_reported_witness :
  Demo.decode_file "missing.jpg" = None /\
  Demo.run "missing.jpg"
  = (Ok PyNone, World ∅ 0 ∅ ∅ ["Error: Could not read image missing.jpg"]).
Proof.
  split; [reflexivity|].
  apply (unreadable_image_is_reported Demo.decode_file Demo.bgr2gray Demo.find_external
           Demo.fill_covers Demo.Path_parent Demo.Path_join "missing.jpg" Demo.world0).
  reflexivity.
Defined.

Lemma no_object_is_not_an_error_witness :
  exists w',
    Demo.run "blank.png" = (Ok PyNone, w') /\
    output_dir_of Demo.Path_parent Demo.Path_join "blank.png" ∈ dirs w' /\
    dirs w' = {[output_dir_of Demo.Path_parent Demo.Path_join "blank.png"]}
                ∪ dirs Demo.world0 /\
    files w' = files Demo.world0 /\
    exists shape_line contours_line,
      stdout w'
      = stdout Demo.world0
          ++ [shape_line; contours_line; "Found 0 valid objects (area > 1000)";
              newline +:+ "Done! Saved 0 parts to "
                +:+ output_dir_of Demo.Path_parent Demo.Path_join "blank.png"].
Proof.
  apply (no_object_is_not_an_error Demo.decode_file Demo.bgr2gray Demo.find_external
           Demo.fill_covers Demo.Path_parent Demo.Path_join "blank.png" Demo.blank
           Demo.world0).
  - reflexivity.
  - exact blank_ok.
  - vm_compute. reflexivity.
  - right. reflexivity.
Defined.

Lemma segment_objects_returns_none_witness :
  exists w',
    Demo.run "ellis-tomte.jpg" = (Ok PyNone, w') /\
    (forall p, is_Some (files w' !! p) <->
               is_Some (files Demo.world0 !! p) \/
               (p ∈ saved_files Demo.bgr2gray Demo.find_external Demo.Path_parent
                      Demo.Path_join "ellis-tomte.jpg" Demo.picture /\
                p ∉ {[output_dir_of Demo.Path_parent Demo.Path_join "ellis-tomte.jpg"]}
                      ∪ dirs Demo.world0)) /\
    length (saved_files Demo.bgr2gray Demo.find_external Demo.Path_parent Demo.Path_join
              "ellis-tomte.jpg" Demo.picture)
    = length (objects_of Demo.bgr2gray Demo.find_external Demo.picture) /\
    exists shape_line contours_line valid_line done_line,
      stdout w'
      = stdout Demo.world0 ++ [shape_line; contours_line; valid_line]
          ++ map (saved_line Demo.Path_join
                    (output_dir_of Demo.Path_parent Demo.Path_join "ellis-tomte.jpg"))
                 (enumerate 1 (objects_of Demo.bgr2gray Demo.find_external Demo.picture))
          ++ [done_line].
Proof.
  apply (segment_objects_returns_none Demo.decode_file Demo.bgr2gray Demo.find_external
           Demo.fill_covers Demo.Path_parent Demo.Path_join "ellis-tomte.jpg" Demo.picture
           Demo.world0).
  - reflexivity.
  - exact picture_ok.
  - exact demo_objects_in_image.
  - right. reflexivity.
Defined.

(** * Further properties of the script *)

(** ** Contours *)

(** X1: a contour of fewer than three points encloses no area, so every
    retained contour has at least three points. *)
Theorem retained_has_three_points (cnt : contour) :
  ((length cnt < 3)%nat -> cv2_contourArea cnt == 0)%Q /\
  (retained cnt -> (3 <= length cnt)%nat).
Proof.
  assert ((length cnt < 3)%nat -> cv2_contourArea cnt == 0)%Q as Hsmall.
  { intros Hlen. rewrite contourArea_shoelace.
    destruct cnt as [|p [|q [|r rest]]]; simpl in Hlen; try lia.
    - reflexivity.
    - unfold shoelace_area, edge_sum, cross.
      replace (p.1 * p.2 - p.1 * p.2) with 0 by lia. reflexivity.
    - unfold shoelace_area, edge_sum, cross.
      replace (p.1 * q.2 - q.1 * p.2 + (q.1 * p.2 - p.1 * q.2)) with 0 by lia.
      reflexivity. }
  split; [exact Hsmall|].
  intros Hret. destruct (decide (3 <= length cnt)%nat) as [|Hlt]; [done|].
  apply Qgtb_lt in Hret. rewrite Hsmall in Hret by lia. discriminate Hret.
Qed.

Lemma retained_has_three_points_witness :
  (3 <= length Demo.square)%nat.
Proof. apply (retained_has_three_points Demo.square). reflexivity. Defined.

Lemma foldr_min_le_elem (a v : Z) (l : list Z) : v ∈ l -> foldr Z.min a l <= v.
Proof.
  induction l as [|u l IH]; [by rewrite elem_of_nil|].
  rewrite elem_of_cons. simpl. intros [->|H]; [lia|]. specialize (IH H). lia.
Qed.

Lemma foldr_max_ge_elem (a v : Z) (l : list Z) : v ∈ l -> v <= foldr Z.max a l.
Proof.
  induction l as [|u l IH]; [by rewrite elem_of_nil|].
  rewrite elem_of_cons. simpl. intros [->|H]; [lia|]. specialize (IH H). lia.
Qed.

Lemma foldr_min_le_init (a : Z) (l : list Z) : foldr Z.min a l <= a.
Proof. induction l as [|u l IH]; simpl; lia. Qed.

Lemma foldr_max_ge_init (a : Z) (l : list Z) : a <= foldr Z.max a l.
Proof. induction l as [|u l IH]; simpl; lia. Qed.

(** The box of a contour holds each of its points. *)
Lemma boundingRect_contains (cnt : contour) (x y w h : Z) (p : point) :
  cv2_boundingRect cnt = (x, y, w, h) -> p ∈ cnt ->
  x <= p.1 < x + w /\ y <= p.2 < y + h.
Proof.
  intros Hbox Hp. destruct cnt as [|[px py] rest]; [by apply elem_of_nil in Hp|].
  unfold cv2_boundingRect in Hbox. injection Hbox as <- <- <- <-.
  apply elem_of_cons in Hp as [->|Hp]; simpl.
  - pose proof (foldr_min_le_init px (map fst rest)).
    pose proof (foldr_max_ge_init px (map fst rest)).
    pose proof (foldr_min_le_init py (map snd rest)).
    pose proof (foldr_max_ge_init py (map snd rest)). lia.
  - assert (p.1 ∈ map fst rest) as H1.
    { rewrite (map_fmap fst rest). by apply list_elem_of_fmap_2. }
    assert (p.2 ∈ map snd rest) as H2.
    { rewrite (map_fmap snd rest). by apply list_elem_of_fmap_2. }
    pose proof (foldr_min_le_elem px _ _ H1). pose proof (foldr_max_ge_elem px _ _ H1).
    pose proof (foldr_min_le_elem py _ _ H2). pose proof (foldr_max_ge_elem py _ _ H2).
    lia.
Qed.

(** X2: the contour handed to [drawContours] lies inside the mask: after
    the shift by (x1, y1) every point of a contour of the image is a cell
    of the mask of shape (y2 - y1, x2 - x1). *)
Theorem shifted_contour_in_mask (height width : Z) (cnt : contour) (x1 y1 x2 y2 : Z) :
  in_image height width cnt ->
  crop_box height width cnt = (x1, y1, x2, y2) ->
  in_image (y2 - y1) (x2 - x1) (contour_sub cnt (x1, y1)).
Proof.
  intros Him Hcrop.
  destruct (cv2_boundingRect cnt) as [[[x y] w] h] eqn:Hbox.
  rewrite (crop_box_eq _ _ _ _ _ _ _ Hbox) in Hcrop. injection Hcrop as <- <- <- <-.
  unfold in_image, contour_sub in *. rewrite map_fmap. apply Forall_fmap.
  apply Forall_forall. intros p Hp. simpl.
  pose proof (boundingRect_contains _ _ _ _ _ p Hbox Hp).
  rewrite Forall_forall in Him. specialize (Him p Hp). simpl in Him. lia.
Qed.

Lemma shifted_contour_in_mask_witness :
  in_image (48 - 0) (48 - 0) (contour_sub Demo.square (0, 0)).
Proof.
  apply (shifted_contour_in_mask 48 48 Demo.square 0 0 48 48).
  - exact demo_square_in_image.
  - reflexivity.
Defined.

(** X3: the crop holds the bounding box and is at most 20 pixels wider on
    each side; the padding is the full 20 pixels on every side that is at
    least 20 pixels from the border of the image. *)
Theorem crop_box_pads_the_box (height width : Z) (cnt : contour) (x y w h x1 y1 x2 y2 : Z) :
  cnt <> [] -> in_image height width cnt ->
  cv2_boundingRect cnt = (x, y, w, h) ->
  crop_box height width cnt = (x1, y1, x2, y2) ->
  (x - 20 <= x1 <= x /\ x + w <= x2 <= x + w + 20) /\
  (y - 20 <= y1 <= y /\ y + h <= y2 <= y + h + 20) /\
  (20 <= x -> x1 = x - 20) /\ (x + w + 20 <= width -> x2 = x + w + 20) /\
  (20 <= y -> y1 = y - 20) /\ (y + h + 20 <= height -> y2 = y + h + 20) /\
  (x < 20 -> x1 = 0) /\ (width < x + w + 20 -> x2 = width) /\
  (y < 20 -> y1 = 0) /\ (height < y + h + 20 -> y2 = height).
Proof.
  intros Hne Him Hbox Hcrop.
  pose proof (boundingRect_in_image _ _ _ _ _ _ _ Hne Him Hbox).
  rewrite (crop_box_eq _ _ _ _ _ _ _ Hbox) in Hcrop. injection Hcrop as <- <- <- <-.
  lia.
Qed.

Lemma crop_box_pads_the_box_witness :
  (6 - 20 <= 0 <= 6 /\ 6 + 36 <= 48 <= 6 + 36 + 20) /\
  (6 - 20 <= 0 <= 6 /\ 6 + 36 <= 48 <= 6 + 36 + 20) /\
  (20 <= 6 -> 0 = 6 - 20) /\ (6 + 36 + 20 <= 48 -> 48 = 6 + 36 + 20) /\
  (20 <= 6 -> 0 = 6 - 20) /\ (6 + 36 + 20 <= 48 -> 48 = 6 + 36 + 20) /\
  (6 < 20 -> 0 = 0) /\ (48 < 6 + 36 + 20 -> 48 = 48) /\
  (6 < 20 -> 0 = 0) /\ (48 < 6 + 36 + 20 -> 48 = 48).
Proof.
  apply (crop_box_pads_the_box 48 48 Demo.square 6 6 36 36 0 0 48 48).
  - discriminate.
  - exact demo_square_in_image.
  - reflexivity.
  - reflexivity.
Defined.

(** ** The mask handed to the contour finder *)

Lemma sample_map_cells (f : Z -> Z -> Z) (src : matrix) (r c : Z) :
  sample (map_cells f src) r c = (fun _ => f r c) <$> sample src r c.
Proof.
  unfold sample, map_cells.
  destruct (Z.ltb_spec r 0); [done|]. destruct (Z.ltb_spec c 0); [done|]. simpl.
  rewrite list_lookup_imap. destruct (src !! Z.to_nat r) as [row|]; [|done]. simpl.
  rewrite list_lookup_imap. destruct (row !! Z.to_nat c) as [v|]; [|done]. simpl.
  by rewrite !Z2Nat.id by lia.
Qed.

(** Every value under the kernel is a sample of the source. *)
Lemma under_kernel_samples (kernel src : matrix) (r c v : Z) :
  In v (under_kernel kernel src r c) -> exists r' c', sample src r' c' = Some v.
Proof.
  unfold under_kernel. intros H.
  apply in_concat in H as (l & Hl & Hv).
  apply list_elem_of_In, elem_of_lookup_imap in Hl as (i & krow & -> & _).
  apply in_concat in Hv as (l' & Hl' & Hv).
  apply list_elem_of_In, elem_of_lookup_imap in Hl' as (j & k & -> & _).
  destruct (k =? 0); [done|].
  destruct (sample src _ _) as [u|] eqn:Hs; [|done].
  destruct Hv as [<-|[]]. eauto.
Qed.

Lemma foldr_max_binary (l : list Z) :
  (forall v, In v l -> v = 0 \/ v = 255) -> foldr Z.max 0 l = 0 \/ foldr Z.max 0 l = 255.
Proof.
  induction l as [|u l IH]; intros H; simpl; [auto|].
  destruct (H u (or_introl eq_refl)), IH; intros; try (apply H; by right); lia.
Qed.

Lemma foldr_min_binary (l : list Z) :
  (forall v, In v l -> v = 0 \/ v = 255) -> foldr Z.min 255 l = 0 \/ foldr Z.min 255 l = 255.
Proof.
  induction l as [|u l IH]; intros H; simpl; [auto|].
  destruct (H u (or_introl eq_refl)), IH; intros; try (apply H; by right); lia.
Qed.

Lemma dilate_binary (src kernel : matrix) : binary src -> binary (cv2_dilate src kernel).
Proof.
  intros Hb r c v. unfold cv2_dilate. rewrite sample_map_cells.
  destruct (sample src r c); [|done]. simpl. intros [= <-].
  apply foldr_max_binary. intros u Hu.
  apply under_kernel_samples in Hu as (r' & c' & Hu). eauto.
Qed.

Lemma erode_binary (src kernel : matrix) : binary src -> binary (cv2_erode src kernel).
Proof.
  intros Hb r c v. unfold cv2_erode. rewrite sample_map_cells.
  destruct (sample src r c); [|done]. simpl. intros [= <-].
  apply foldr_min_binary. intros u Hu.
  apply under_kernel_samples in Hu as (r' & c' & Hu). eauto.
Qed.

Lemma binarize_binary (gray : matrix) : binary (binarize gray).
Proof.
  intros r c v. rewrite binarize_sample.
  destruct (sample gray r c) as [u|]; [|done]. simpl. intros [= <-].
  destruct (240 <? u); auto.
Qed.

Lemma dilate_defined (src kernel : matrix) (r c : Z) :
  is_Some (sample (cv2_dilate src kernel) r c) <-> is_Some (sample src r c).
Proof. unfold cv2_dilate. rewrite sample_map_cells. apply fmap_is_Some. Qed.

Lemma erode_defined (src kernel : matrix) (r c : Z) :
  is_Some (sample (cv2_erode src kernel) r c) <-> is_Some (sample src r c).
Proof. unfold cv2_erode. rewrite sample_map_cells. apply fmap_is_Some. Qed.

(** X4: the mask the contour finder receives has a sample exactly where
    the grayscale image has one, and each of its samples is 0 or 255. *)
Theorem cleaned_mask_is_binary (gray : matrix) (r c : Z) :
  (is_Some (sample (clean_noise (binarize gray)) r c) <-> is_Some (sample gray r c)) /\
  (forall v, sample (clean_noise (binarize gray)) r c = Some v -> v = 0 \/ v = 255).
Proof.
  unfold clean_noise, cv2_morphologyEx. split.
  - rewrite dilate_defined, erode_defined, erode_defined, dilate_defined.
    rewrite binarize_sample. apply fmap_is_Some.
  - apply dilate_binary, erode_binary, erode_binary, dilate_binary, binarize_binary.
Qed.

(** ** Closing and opening with the 5x5 element *)

Lemma in_around5 (m : matrix) (r c v : Z) :
  In v (around5 m r c) <->
  exists dr dc, -2 <= dr <= 2 /\ -2 <= dc <= 2 /\ sample m (r + dr) (c + dc) = Some v.
Proof.
  unfold around5. rewrite in_flat_map. split.
  - intros (dr & Hdr & H). apply in_flat_map in H as (dc & Hdc & H).
    exists dr, dc. destruct (sample m _ _) as [u|]; [|done].
    destruct H as [<-|[]]. simpl in Hdr, Hdc. repeat split; try lia; done.
  - intros (dr & dc & Hdr & Hdc & H). exists dr. split.
    { simpl. lia. }
    apply in_flat_map. exists dc. split; [simpl; lia|]. rewrite H. by left.
Qed.

Lemma sample_dilate5 (m : matrix) (r c : Z) :
  sample (cv2_dilate m (np_ones 5 5)) r c
  = (fun _ => foldr Z.max 0 (around5 m r c)) <$> sample m r c.
Proof. unfold cv2_dilate. by rewrite sample_map_cells, under_ones_5x5. Qed.

Lemma sample_erode5 (m : matrix) (r c : Z) :
  sample (cv2_erode m (np_ones 5 5)) r c
  = (fun _ => foldr Z.min 255 (around5 m r c)) <$> sample m r c.
Proof. unfold cv2_erode. by rewrite sample_map_cells, under_ones_5x5. Qed.

Lemma foldr_min_255 (l : list Z) :
  (forall u, In u l -> 255 <= u) -> foldr Z.min 255 l = 255.
Proof.
  induction l as [|u l IH]; intros H; simpl; [done|].
  rewrite IH by (intros; apply H; by right).
  pose proof (H u (or_introl eq_refl)). lia.
Qed.

Lemma foldr_max_0 (l : list Z) :
  (forall u, In u l -> u <= 0) -> foldr Z.max 0 l = 0.
Proof.
  induction l as [|u l IH]; intros H; simpl; [done|].
  rewrite IH by (intros; apply H; by right).
  pose proof (H u (or_introl eq_refl)). lia.
Qed.

(** X5: closing with the 5x5 element never clears a foreground pixel and
    opening with it never sets a background pixel. *)
Theorem closing_keeps_foreground_opening_keeps_background (m : matrix) (r c : Z) :
  (sample m r c = Some 255 ->
   sample (cv2_morphologyEx m MORPH_CLOSE (np_ones 5 5)) r c = Some 255) /\
  (sample m r c = Some 0 ->
   sample (cv2_morphologyEx m MORPH_OPEN (np_ones 5 5)) r c = Some 0).
Proof.
  unfold cv2_morphologyEx. split; intros Hrc.
  -  rewrite sample_erode5, sample_dilate5, Hrc. simpl. f_equal.
    apply foldr_min_255. intros u Hu.
    apply in_around5 in Hu as (dr & dc & Hdr & Hdc & Hu).
    rewrite sample_dilate5 in Hu.
    destruct (sample m (r + dr) (c + dc)); [|done]. simpl in Hu. injection Hu as <-.
    apply foldr_max_ge_elem, list_elem_of_In, in_around5.
    exists (- dr), (- dc). replace (r + dr + - dr) with r by lia.
    replace (c + dc + - dc) with c by lia. repeat split; try lia; done.
  - rewrite sample_dilate5, sample_erode5, Hrc. simpl. f_equal.
    apply foldr_max_0. intros u Hu.
    apply in_around5 in Hu as (dr & dc & Hdr & Hdc & Hu).
    rewrite sample_erode5 in Hu.
    destruct (sample m (r + dr) (c + dc)); [|done]. simpl in Hu. injection Hu as <-.
    apply foldr_min_le_elem, list_elem_of_In, in_around5.
    exists (- dr), (- dc). replace (r + dr + - dr) with r by lia.
    replace (c + dc + - dc) with c by lia. repeat split; try lia; done.
Qed.

Lemma closing_keeps_foreground_opening_keeps_background_witness :
  sample (cv2_morphologyEx [[255; 0]; [0; 0]] MORPH_CLOSE (np_ones 5 5)) 0 0 = Some 255.
Proof.
  apply (closing_keeps_foreground_opening_keeps_background [[255; 0]; [0; 0]] 0 0).
  reflexivity.
Defined.

(** ** Closing, then opening *)

Lemma uint8_bytes (m : matrix) : uint8 m -> bytes (sample m).
Proof.
  intros H r c v. unfold sample.
  destruct (_ || _); [done|].
  destruct (m !! Z.to_nat r) as [row|] eqn:Hrow; [|done]. simpl. intros Hv.
  apply (Forall_lookup_1 _ _ _ _ (Forall_lookup_1 _ _ _ _ H Hrow) Hv).
Qed.

Lemma near5_around5 (m : matrix) (r c u : Z) :
  near5 (sample m) r c u <-> In u (around5 m r c).
Proof. symmetry. apply in_around5. Qed.

Lemma foldr_max_in (l : list Z) :
  l <> [] -> (forall u, In u l -> 0 <= u) -> In (foldr Z.max 0 l) l.
Proof.
  induction l as [|u l IH]; [done|]. intros _ H. simpl.
  destruct l as [|u' l'].
  - left. simpl. pose proof (H u (or_introl eq_refl)). lia.
  - destruct (Z.max_spec u (foldr Z.max 0 (u' :: l'))) as [[_ ->]|[_ ->]].
    + right. apply IH; [done|]. intros; apply H; by right.
    + by left.
Qed.

Lemma foldr_min_in (l : list Z) :
  l <> [] -> (forall u, In u l -> u <= 255) -> In (foldr Z.min 255 l) l.
Proof.
  induction l as [|u l IH]; [done|]. intros _ H. simpl.
  destruct l as [|u' l'].
  - left. simpl. pose proof (H u (or_introl eq_refl)). lia.
  - destruct (Z.min_spec u (foldr Z.min 255 (u' :: l'))) as [[_ ->]|[_ ->]].
    + by left.
    + right. apply IH; [done|]. intros; apply H; by right.
Qed.

Lemma around5_centre (m : matrix) (r c v : Z) :
  sample m r c = Some v -> In v (around5 m r c).
Proof.
  intros H. apply in_around5. exists 0, 0. rewrite !Z.add_0_r. repeat split; try lia; done.
Qed.

Lemma dilate5_dilation (m : matrix) :
  bytes (sample m) -> dilation5 (sample m) (sample (cv2_dilate m (np_ones 5 5))).
Proof.
  intros Hb r c. rewrite sample_dilate5.
  destruct (sample m r c) as [x|] eqn:Hx; [|done]. simpl.
  eexists. split; [done|]. split.
  - apply near5_around5, foldr_max_in.
    + intros Hnil. apply around5_centre in Hx. rewrite Hnil in Hx. destruct Hx.
    + intros u Hu. apply in_around5 in Hu as (dr & dc & _ & _ & Hu). apply Hb in Hu. lia.
  - intros u Hu. apply near5_around5 in Hu. by apply foldr_max_ge_elem, list_elem_of_In.
Qed.

Lemma erode5_erosion (m : matrix) :
  bytes (sample m) -> erosion5 (sample m) (sample (cv2_erode m (np_ones 5 5))).
Proof.
  intros Hb r c. rewrite sample_erode5.
  destruct (sample m r c) as [x|] eqn:Hx; [|done]. simpl.
  eexists. split; [done|]. split.
  - apply near5_around5, foldr_min_in.
    + intros Hnil. apply around5_centre in Hx. rewrite Hnil in Hx. destruct Hx.
    + intros u Hu. apply in_around5 in Hu as (dr & dc & _ & _ & Hu). apply Hb in Hu. lia.
  - intros u Hu. apply near5_around5 in Hu. by apply foldr_min_le_elem, list_elem_of_In.
Qed.

Lemma dilate_bytes (m kernel : matrix) :
  bytes (sample m) -> bytes (sample (cv2_dilate m kernel)).
Proof.
  intros Hb r c v. unfold cv2_dilate. rewrite sample_map_cells.
  destruct (sample m r c); [|done]. simpl. intros [= <-].
  apply foldr_max_bounds; [lia|]. apply Forall_forall. intros u Hu.
  apply list_elem_of_In, under_kernel_samples in Hu as (r' & c' & Hu). by apply Hb in Hu.
Qed.

Lemma erode_bytes (m kernel : matrix) :
  bytes (sample m) -> bytes (sample (cv2_erode m kernel)).
Proof.
  intros Hb r c v. unfold cv2_erode. rewrite sample_map_cells.
  destruct (sample m r c); [|done]. simpl. intros [= <-].
  apply foldr_min_bounds; [lia|]. apply Forall_forall. intros u Hu.
  apply list_elem_of_In, under_kernel_samples in Hu as (r' & c' & Hu). by apply Hb in Hu.
Qed.

(** The dilation and the erosion of a field are unique. *)
Lemma dilation5_unique (f g g' : field) :
  dilation5 f g -> dilation5 f g' -> forall r c, g r c = g' r c.
Proof.
  intros H H' r c. specialize (H r c). specialize (H' r c).
  destruct (f r c); [|congruence].
  destruct H as (v & -> & Hv & Hmax), H' as (v' & -> & Hv' & Hmax').
  f_equal. apply Hmax in Hv'. apply Hmax' in Hv. lia.
Qed.

Lemma erosion5_unique (f g g' : field) :
  erosion5 f g -> erosion5 f g' -> forall r c, g r c = g' r c.
Proof.
  intros H H' r c. specialize (H r c). specialize (H' r c).
  destruct (f r c); [|congruence].
  destruct H as (v & -> & Hv & Hmin), H' as (v' & -> & Hv' & Hmin').
  f_equal. apply Hmin in Hv'. apply Hmin' in Hv. lia.
Qed.

Lemma near5_ext (f f' : field) (r c u : Z) :
  (forall r c, f r c = f' r c) -> near5 f r c u -> near5 f' r c u.
Proof.
  intros Heq (dr & dc & Hdr & Hdc & H). exists dr, dc. by rewrite <- Heq.
Qed.

Lemma dilation5_ext (f f' g : field) :
  (forall r c, f r c = f' r c) -> dilation5 f g -> dilation5 f' g.
Proof.
  intros Heq H r c. specialize (H r c). rewrite <- Heq.
  destruct (f r c); [|done]. destruct H as (v & Hg & Hv & Hmax).
  exists v. split; [done|]. split; [by apply (near5_ext f)|].
  intros u Hu. apply Hmax. apply (near5_ext f'); [|done]. intros; by rewrite Heq.
Qed.

Lemma erosion5_ext (f f' g : field) :
  (forall r c, f r c = f' r c) -> erosion5 f g -> erosion5 f' g.
Proof.
  intros Heq H r c. specialize (H r c). rewrite <- Heq.
  destruct (f r c); [|done]. destruct H as (v & Hg & Hv & Hmin).
  exists v. split; [done|]. split; [by apply (near5_ext f)|].
  intros u Hu. apply Hmin. apply (near5_ext f'); [|done]. intros; by rewrite Heq.
Qed.

Lemma closing5_unique (f g g' : field) :
  closing5 f g -> closing5 f g' -> forall r c, g r c = g' r c.
Proof.
  intros (d & Hd & He) (d' & Hd' & He').
  apply (erosion5_unique d); [done|].
  apply (erosion5_ext d'); [|done]. intros. by apply (dilation5_unique f).
Qed.

Lemma opening5_unique (f g g' : field) :
  opening5 f g -> opening5 f g' -> forall r c, g r c = g' r c.
Proof.
  intros (e & He & Hd) (e' & He' & Hd').
  apply (dilation5_unique e); [done|].
  apply (dilation5_ext e'); [|done]. intros. by apply (erosion5_unique f).
Qed.

(** C8: the noise cleaner applies to the binary mask a closing with the
    5x5 element of ones (dilation, each sample becoming the greatest sample
    at most two rows and two columns away, followed by erosion, the least),
    and then to the closed mask an opening with the same element (erosion
    followed by dilation).  Closing comes first: the cleaned mask is the
    opening of the closing of the mask, and it is the only one. *)
Theorem clean_noise_closing_then_opening (thresh : matrix) :
  uint8 thresh ->
  exists closed : matrix,
    closing5 (sample thresh) (sample closed) /\
    opening5 (sample closed) (sample (clean_noise thresh)) /\
    closed = cv2_morphologyEx thresh MORPH_CLOSE (np_ones 5 5) /\
    forall g h : field,
      closing5 (sample thresh) g -> opening5 g h ->
      forall r c, sample (clean_noise thresh) r c = h r c.
Proof.
  intros Hu. apply uint8_bytes in Hu.
  unfold clean_noise, cv2_morphologyEx.
  pose proof (dilate_bytes _ (np_ones 5 5) Hu) as Hd.
  pose proof (erode_bytes _ (np_ones 5 5) Hd) as Hc.
  pose proof (erode_bytes _ (np_ones 5 5) Hc) as He.
  set (closed := cv2_erode (cv2_dilate thresh (np_ones 5 5)) (np_ones 5 5)) in *.
  assert (closing5 (sample thresh) (sample closed)) as Hclose.
  { eexists. split; [by apply dilate5_dilation|by apply erode5_erosion]. }
  assert (opening5 (sample closed)
            (sample (cv2_dilate (cv2_erode closed (np_ones 5 5)) (np_ones 5 5)))) as Hopen.
  { eexists. split; [by apply erode5_erosion|by apply dilate5_dilation]. }
  exists closed. split; [done|]. split; [done|]. split; [done|].
  intros g h Hg (e & He1 & He2).
  apply (opening5_unique (sample closed)); [done|].
  exists e. split; [|done].
  apply (erosion5_ext g); [|done]. intros. by apply (closing5_unique (sample thresh)).
Qed.

Lemma clean_noise_closing_then_opening_witness :
  exists closed : matrix,
    closing5 (sample [[255; 0]; [0; 0]]) (sample closed) /\
    opening5 (sample closed) (sample (clean_noise [[255; 0]; [0; 0]])) /\
    closed = cv2_morphologyEx [[255; 0]; [0; 0]] MORPH_CLOSE (np_ones 5 5) /\
    forall g h : field,
      closing5 (sample [[255; 0]; [0; 0]]) g -> opening5 g h ->
      forall r c, sample (clean_noise [[255; 0]; [0; 0]]) r c = h r c.
Proof.
  apply (clean_noise_closing_then_opening [[255; 0]; [0; 0]]).
  apply (bool_decide_unpack _). vm_compute. reflexivity.
Defined.

(** ** File names *)

Lemma ascii_list_app (s t : string) :
  String.list_ascii_of_string (s +:+ t) = String.list_ascii_of_string s ++ String.list_ascii_of_string t.
Proof. induction s as [|a s IH]; simpl; [done|]. by rewrite IH. Qed.

Lemma string_app_inv_tail (s1 s2 t : string) : s1 +:+ t = s2 +:+ t -> s1 = s2.
Proof.
  intros H. apply (f_equal String.list_ascii_of_string) in H.
  rewrite !ascii_list_app in H. apply app_inv_tail in H.
  apply (f_equal String.string_of_list_ascii) in H.
  by rewrite !String.string_of_list_ascii_of_string in H.
Qed.

(** The decimal form of a positive number does not start with a zero. *)
Lemma pretty_N_go_lead (x : N) (s : string) :
  (0 < x)%N -> exists c t, pretty_N_go x s = String c t /\ c <> "0"%char.
Proof.
  revert s. induction (N.lt_wf_0 x) as [x _ IH]; intros s Hx.
  rewrite pretty_N_go_step by done.
  destruct (decide (x < 10)%N) as [Hsmall|Hbig].
  - rewrite N.div_small, pretty_N_go_0, N.mod_small by done.
    eexists _, _. split; [done|].
    assert (x = 1 \/ x = 2 \/ x = 3 \/ x = 4 \/ x = 5 \/ x = 6 \/ x = 7 \/ x = 8 \/ x = 9)%N
      as Hcase by lia.
    destruct Hcase as [->|[->|[->|[->|[->|[->|[->|[->| ->]]]]]]]]; done.
  - apply IH.
    + apply N.div_lt; lia.
    + apply N.div_str_pos. lia.
Qed.

Lemma pretty_nat_lead (n : nat) :
  n <> 0%nat -> exists c t, pretty n = String c t /\ c <> "0"%char.
Proof.
  intros Hn. unfold pretty, pretty_nat, pretty, pretty_N.
  rewrite decide_False by lia. apply pretty_N_go_lead. lia.
Qed.

(** Two indices never get the same two-digit form. *)
Lemma fmt_02d_inj (i j : nat) : fmt_02d i = fmt_02d j -> i = j.
Proof.
  assert (forall a b : nat,
            (String.length (pretty a) <? 2)%nat = true ->
            (String.length (pretty b) <? 2)%nat = false ->
            "0" +:+ pretty a <> pretty b) as Hmixed.
  { intros a b _ Hb Heq. destruct (decide (b = 0%nat)) as [->|Hb0]; [done|].
    destruct (pretty_nat_lead b Hb0) as (c & t & Hp & Hc).
    rewrite Hp in Heq. simpl in Heq. injection Heq as Hc' _. by apply Hc. }
  unfold fmt_02d.
  destruct (String.length (pretty i) <? 2)%nat eqn:Hi,
           (String.length (pretty j) <? 2)%nat eqn:Hj; intros Heq.
  - simpl in Heq. injection Heq as Heq. by apply (inj pretty).
  - by destruct (Hmixed i j Hi Hj).
  - by destruct (Hmixed j i Hj Hi).
  - by apply (inj pretty).
Qed.

Lemma map_enumerate_fst {A B} (g : nat -> B) (start : nat) (l : list A) :
  map (fun item => g item.1) (enumerate start l) = g <$> seq start (length l).
Proof.
  revert start. induction l as [|a l IH]; intros start; simpl; [done|]. by rewrite IH.
Qed.

Section Names.
Variable bgr2gray : list Z -> Z.
Variable find_external : matrix -> list contour.
Variable Path_parent : string -> string.
Variable Path_join : string -> string -> string.

(** X6: the file names [part_NN.png] of a run are all different, one per
    retained contour, whatever their number (also beyond 99); so, as long
    as joining the output directory with two different names of that form
    gives two different paths, the saved files all have different paths:
    no object overwrites the file of another. *)
Theorem saved_files_are_distinct (image_path : string) (data : raster) :
  (forall i j : nat,
     Path_join (output_dir_of Path_parent Path_join image_path)
               ("part_" +:+ fmt_02d i +:+ ".png")
     = Path_join (output_dir_of Path_parent Path_join image_path)
                 ("part_" +:+ fmt_02d j +:+ ".png") ->
     "part_" +:+ fmt_02d i +:+ ".png" = "part_" +:+ fmt_02d j +:+ ".png") ->
  NoDup (map (fun item : nat * contour => "part_" +:+ fmt_02d item.1 +:+ ".png")
             (enumerate 1 (objects_of bgr2gray find_external data))) /\
  NoDup (saved_files bgr2gray find_external Path_parent Path_join image_path data) /\
  length (saved_files bgr2gray find_external Path_parent Path_join image_path data)
  = length (objects_of bgr2gray find_external data).
Proof.
  intros Hinj.
  assert (forall i j : nat,
            "part_" +:+ fmt_02d i +:+ ".png" = "part_" +:+ fmt_02d j +:+ ".png" -> i = j)
    as Hname.
  { intros i j Heq. apply (String.app_inj "part_") in Heq.
    by apply string_app_inv_tail, fmt_02d_inj in Heq. }
  unfold saved_files. split; [|split].
  - rewrite (map_enumerate_fst (fun i : nat => "part_" +:+ fmt_02d i +:+ ".png")).
    apply NoDup_fmap_2_strong; [|apply NoDup_seq].
    intros i j _ _ Heq. by apply Hname.
  - rewrite (map_enumerate_fst
               (object_path Path_join (output_dir_of Path_parent Path_join image_path))).
    apply NoDup_fmap_2_strong; [|apply NoDup_seq].
    intros i j _ _ Heq. unfold object_path in Heq.
    by apply Hname, Hinj.
  - by rewrite length_map, length_enumerate.
Qed.

End Names.

Lemma demo_join_inj (a b : string) :
  Demo.Path_join (output_dir_of Demo.Path_parent Demo.Path_join "ellis-tomte.jpg") a
  = Demo.Path_join (output_dir_of Demo.Path_parent Demo.Path_join "ellis-tomte.jpg") b ->
  a = b.
Proof.
  change (output_dir_of Demo.Path_parent Demo.Path_join "ellis-tomte.jpg")
    with "segmented_parts".
  unfold Demo.Path_join. simpl. intros H. by simplify_eq.
Qed.

Lemma saved_files_are_distinct_witness :
  NoDup (saved_files Demo.bgr2gray Demo.find_external Demo.Path_parent Demo.Path_join
           "ellis-tomte.jpg" Demo.picture).
Proof.
  apply (saved_files_are_distinct Demo.bgr2gray Demo.find_external Demo.Path_parent
           Demo.Path_join "ellis-tomte.jpg" Demo.picture).
  intros i j. apply demo_join_inj.
Defined.

(** ** The colours of a saved picture *)

Section Colours.
Variable fill_covers : list contour -> Z -> Z -> bool.
Variable Path_join : string -> string -> string.

(** X7: in the picture built for an object, the pixel (r, c) has the
    blue, green and red samples of the source pixel (y1 + r, x1 + c),
    followed by one alpha sample; that picture is the content of the file
    [part_NN.png] unless a directory has that name. *)
Theorem exported_colours_are_the_source (img : ndarray) (output_dir : string)
    (idx : nat) (cnt : contour) (w : world) (x1 y1 x2 y2 : Z) :
  nd_valid (heap w) img -> nd_c img = 3%nat ->
  retained cnt -> in_image (Z.of_nat (nd_h img)) (Z.of_nat (nd_w img)) cnt ->
  crop_box (Z.of_nat (nd_h img)) (Z.of_nat (nd_w img)) cnt = (x1, y1, x2, y2) ->
  exists w' rgba,
    export_object fill_covers Path_join img output_dir (idx, cnt) w = (Ok tt, w') /\
    heap w' !! S (next w) = Some rgba /\
    (Path_join output_dir ("part_" +:+ fmt_02d idx +:+ ".png") ∉ dirs w ->
     files w' !! Path_join output_dir ("part_" +:+ fmt_02d idx +:+ ".png") = Some rgba) /\
    forall r c, (r < Z.to_nat (y2 - y1))%nat -> (c < Z.to_nat (x2 - x1))%nat ->
      exists b g red alpha,
        pixel (cells img (heap w)) (Z.to_nat y1 + r) (Z.to_nat x1 + c) = Some [b; g; red] /\
        pixel rgba r c = Some [b; g; red; alpha].
Proof.
  intros Hv Hc3 Hret Him Hcrop.
  pose proof (retained_nonempty _ Hret) as Hne.
  destruct (crop_box_bounds _ _ _ _ _ _ _ Hne Him Hcrop) as (Hx & Hx2 & Hy & Hy2).
  assert (0 <= y1 <= y2) as Hy' by lia. assert (0 <= x1 <= x2) as Hx' by lia.
  assert (crop_cells img (heap w) cnt
          = window (Z.to_nat y1) (Z.to_nat x1) (Z.to_nat (y2 - y1)) (Z.to_nat (x2 - x1))
              (cells img (heap w))) as Hcells.
  { unfold crop_cells, shape. cbn [fst snd]. rewrite Hcrop.
    by apply cells_getitem_slices. }
  assert (rect (Z.to_nat (y2 - y1)) (Z.to_nat (x2 - x1)) 3
               (crop_cells img (heap w) cnt)) as Hrect.
  { unfold crop_cells, shape. cbn [fst snd]. rewrite Hcrop, <- Hc3.
    by apply getitem_slices_valid. }
  eexists _, (object_rgba fill_covers img (heap w) cnt). split; [|split; [|split]].
  - by apply (export_object_exported fill_covers Path_join img output_dir (idx, cnt)).
  - unfold exported. cbn [heap]. apply lookup_insert_eq.
  - intros Hfree. unfold exported, written, object_path. cbn [files fst snd].
    rewrite bool_decide_eq_false_2 by done. apply lookup_insert_eq.
  - intros r c Hr Hc.
    destruct (pixel_rect _ _ _ r c _ Hrect Hr Hc) as (px & Hpx & Hlen).
    destruct px as [|b [|g [|red [|? ?]]]]; try discriminate Hlen.
    exists b, g, red, (broadcast_get (object_mask fill_covers img cnt) r c). split.
    + rewrite <- Hpx, Hcells. unfold pixel. symmetry. by apply pixel_window.
    + unfold object_rgba, shape. cbn [fst snd]. rewrite Hcrop.
      rewrite pixel_write_channel, pixel_add_alpha, Hpx by done. done.
Qed.

End Colours.

Lemma exported_colours_are_the_source_witness :
  exists w' rgba,
    export_object Demo.fill_covers Demo.Path_join Demo.img_wide "segmented_parts"
      (1%nat, Demo.offcentre) Demo.loaded_wide = (Ok tt, w') /\
    heap w' !! S (next Demo.loaded_wide) = Some rgba /\
    (Demo.Path_join "segmented_parts" ("part_" +:+ fmt_02d 1 +:+ ".png")
       ∉ dirs Demo.loaded_wide ->
     files w' !! Demo.Path_join "segmented_parts" ("part_" +:+ fmt_02d 1 +:+ ".png")
     = Some rgba) /\
    forall r c, (r < Z.to_nat (80 - 5))%nat -> (c < Z.to_nat (80 - 5))%nat ->
      exists b g red alpha,
        pixel (cells Demo.img_wide (heap Demo.loaded_wide)) (Z.to_nat 5 + r) (Z.to_nat 5 + c)
        = Some [b; g; red] /\
        pixel rgba r c = Some [b; g; red; alpha].
Proof.
  apply (exported_colours_are_the_source Demo.fill_covers Demo.Path_join Demo.img_wide
           "segmented_parts" 1 Demo.offcentre Demo.loaded_wide 5 5 80 80).
  - exact demo_wide_valid.
  - reflexivity.
  - reflexivity.
  - exact demo_offcentre_in_image.
  - reflexivity.
Defined.

(** ** The files of a whole run *)

Lemma write_all_cons (ds : gset string) (pc : string * raster)
    (saved : list (string * raster)) (fs : gmap string raster) :
  write_all ds (pc :: saved) fs = write_all ds saved (written ds pc.1 pc.2 fs).
Proof. reflexivity. Qed.

Lemma written_other (ds : gset string) (path p : string) (picture : raster)
    (fs : gmap string raster) :
  p <> path \/ p ∈ ds -> written ds path picture fs !! p = fs !! p.
Proof.
  intros H. unfold written. case_bool_decide as Hd; [done|].
  apply lookup_insert_ne. intros ->. by destruct H.
Qed.

Lemma write_all_union (ds : gset string) (saved : list (string * raster))
    (fs : gmap string raster) :
  write_all ds saved fs
  = list_to_map (reverse (filter (fun pc => pc.1 ∉ ds) saved)) ∪ fs.
Proof.
  revert fs. induction saved as [|[p c] saved IH]; intros fs.
  - simpl. by rewrite (left_id_L ∅ (∪)).
  - rewrite write_all_cons, IH. unfold written. cbn [fst snd].
    rewrite filter_cons. cbn [fst]. case_bool_decide as Hd.
    + by rewrite decide_False by (intros H; by apply H).
    + rewrite decide_True by done.
      rewrite reverse_cons, list_to_map_app. simpl.
      rewrite insert_union_singleton_l, insert_empty. by rewrite (assoc_L (∪)).
Qed.

Lemma write_all_twice (ds : gset string) (saved : list (string * raster))
    (fs : gmap string raster) :
  write_all ds saved (write_all ds saved fs) = write_all ds saved fs.
Proof.
  rewrite !write_all_union, (assoc_L (∪)). by rewrite (idemp_L (∪)).
Qed.

Lemma write_all_other (ds : gset string) (saved : list (string * raster))
    (fs : gmap string raster) (p : string) :
  p ∉ saved.*1 \/ p ∈ ds -> write_all ds saved fs !! p = fs !! p.
Proof.
  revert fs. induction saved as [|pc saved IH]; intros fs Hp; [done|].
  rewrite write_all_cons, IH.
  - apply written_other. destruct Hp as [Hp|Hp]; [|by right].
    left. intros ->. apply Hp. rewrite fmap_cons. apply elem_of_cons. by left.
  - destruct Hp as [Hp|Hp]; [|by right].
    left. intros H. apply Hp. rewrite fmap_cons. apply elem_of_cons. by right.
Qed.

Lemma write_all_lookup (ds : gset string) (saved : list (string * raster))
    (fs : gmap string raster) (p : string) (c : raster) :
  NoDup saved.*1 -> (p, c) ∈ saved -> p ∉ ds -> write_all ds saved fs !! p = Some c.
Proof.
  intros Hnd Hin Hp. revert fs.
  induction saved as [|pc saved IH]; intros fs; [by apply elem_of_nil in Hin|].
  rewrite fmap_cons in Hnd. apply NoDup_cons in Hnd as [Hfirst Hnd].
  rewrite write_all_cons. apply elem_of_cons in Hin as [<-|Hin].
  - rewrite write_all_other by (by left). unfold written. cbn [fst snd].
    rewrite bool_decide_eq_false_2 by done. apply lookup_insert_eq.
  - by apply IH.
Qed.

Lemma str_Z_of_nat (n : nat) : str_Z (Z.of_nat n) = str_nat n.
Proof. by destruct n. Qed.

Section Files.
Variable decode_file : string -> option raster.
Variable bgr2gray : list Z -> Z.
Variable find_external : matrix -> list contour.
Variable fill_covers : list contour -> Z -> Z -> bool.
Variable Path_parent : string -> string.
Variable Path_join : string -> string -> string.

#[local] Abbreviation run :=
  (segment_objects decode_file bgr2gray find_external fill_covers Path_parent Path_join).
#[local] Abbreviation objects := (objects_of bgr2gray find_external).
#[local] Abbreviation output_dir := (output_dir_of Path_parent Path_join).
#[local] Abbreviation saved :=
  (saved_images bgr2gray find_external fill_covers Path_parent Path_join).
#[local] Abbreviation names :=
  (saved_files bgr2gray find_external Path_parent Path_join).

(** The picture of an object depends on the store through the cells of
    the source only. *)
Lemma object_rgba_cutout (img : ndarray) (hp : gmap loc raster) (data : raster)
    (cnt : contour) :
  hp !! nd_base img = Some data -> nd_y0 img = 0%nat -> nd_x0 img = 0%nat ->
  nd_h img = length data -> nd_w img = length (hd [] data) ->
  object_rgba fill_covers img hp cnt = cutout fill_covers data cnt.
Proof.
  intros Hhp Hy0 Hx0 Hh Hw.
  unfold cutout, object_rgba, object_mask, crop_cells, shape. cbn [fst snd nd_h nd_w].
  rewrite Hh, Hw. destruct (crop_box _ _ cnt) as [[[x1 y1] x2] y2].
  unfold getitem_slices, cells. cbn [nd_h nd_w nd_y0 nd_x0 nd_base].
  rewrite Hh, Hw, Hy0, Hx0.
  destruct (slice_bounds _ y1 y2) as [ys yn], (slice_bounds _ x1 x2) as [xs xn].
  cbn [nd_h nd_w nd_y0 nd_x0 nd_base]. by rewrite Hhp, lookup_singleton_eq.
Qed.

Lemma exported_all_files_eq (img : ndarray) (dir : string) (data : raster)
    (items : list (nat * contour)) (w : world) :
  (nd_base img < next w)%nat -> heap w !! nd_base img = Some data ->
  nd_y0 img = 0%nat -> nd_x0 img = 0%nat ->
  nd_h img = length data -> nd_w img = length (hd [] data) ->
  files (exported_all fill_covers Path_join img dir items w)
  = write_all (dirs w)
      (map (fun item => (object_path Path_join dir item.1,
                         cutout fill_covers data item.2)) items) (files w).
Proof.
  intros Hb Hhp Hy0 Hx0 Hh Hw. revert w Hb Hhp.
  induction items as [|item items IH]; intros w Hb Hhp; [done|].
  unfold exported_all, write_all in *. simpl. rewrite IH.
  - unfold exported. cbn [files dirs fst snd]. by rewrite (object_rgba_cutout img _ data).
  - unfold exported. simpl. lia.
  - by rewrite exported_heap.
Qed.

Lemma finished_files (image_path : string) (data : raster) (w : world) :
  files (finished bgr2gray find_external fill_covers Path_parent Path_join image_path data w)
  = write_all ({[output_dir image_path]} ∪ dirs w) (saved image_path data) (files w).
Proof.
  unfold finished. cbn [files].
  rewrite (exported_all_files_eq _ _ data); try done.
  - unfold before_export, loaded_img. simpl. lia.
  - unfold before_export, loaded_img. simpl. apply lookup_insert_eq.
Qed.

Lemma finished_dirs (image_path : string) (data : raster) (w : world) :
  dirs (finished bgr2gray find_external fill_covers Path_parent Path_join image_path data w)
  = {[output_dir image_path]} ∪ dirs w.
Proof. unfold finished. cbn [dirs]. by rewrite exported_all_dirs. Qed.

Lemma saved_images_names (image_path : string) (data : raster) :
  (saved image_path data).*1 = names image_path data.
Proof.
  unfold saved_images, saved_files.
  induction (enumerate 1 (objects data)) as [|item items IH]; simpl; [done|].
  by rewrite <- IH.
Qed.

(** X8: after a run on a readable image that could make its output
    directory, each retained contour whose file name is not that of a
    directory has its file: when the saved paths are all different, the
    file of the i-th retained contour holds the picture cut out for it,
    whatever a file of that name held before.  Where the name is that of a
    directory nothing is written under it. *)
Theorem saved_files_hold_the_objects (image_path : string) (data : raster) (w : world) :
  decode_file image_path = Some data -> decoded_ok data ->
  Forall (in_image (Z.of_nat (length data)) (Z.of_nat (length (hd [] data)))) (objects data) ->
  NoDup (names image_path data) ->
  can_mkdir w (output_dir image_path) ->
  exists w',
    run image_path w = (Ok PyNone, w') /\
    forall idx cnt, (idx, cnt) ∈ enumerate 1 (objects data) ->
      (object_path Path_join (output_dir image_path) idx
         ∉ {[output_dir image_path]} ∪ dirs w ->
       files w' !! object_path Path_join (output_dir image_path) idx
       = Some (cutout fill_covers data cnt)) /\
      (object_path Path_join (output_dir image_path) idx
         ∈ {[output_dir image_path]} ∪ dirs w ->
       files w' !! object_path Path_join (output_dir image_path) idx
       = files w !! object_path Path_join (output_dir image_path) idx).
Proof.
  intros Hdec Hok Hin Hnd Hcan. eexists. split; [by apply segment_objects_run|].
  intros idx cnt Hitem. rewrite finished_files. split; intros Hp.
  - apply write_all_lookup; [by rewrite saved_images_names| |done].
    unfold saved_images. rewrite map_fmap. apply list_elem_of_fmap.
    by exists (idx, cnt).
  - apply write_all_other. by right.
Qed.

(** X9: whatever its outcome, a run on a readable image changes no file
    other than the ones it saves (files left by an earlier run under other
    names stay as they are), writes nothing under the name of a directory,
    and removes no directory: the directories afterwards are the earlier
    ones and, if it could be made, the output directory.  If it could not
    be made, the run raises [FileExistsError] and leaves all files as they
    were. *)
Theorem other_files_are_untouched (image_path : string) (data : raster) (w : world) :
  decode_file image_path = Some data -> decoded_ok data ->
  Forall (in_image (Z.of_nat (length data)) (Z.of_nat (length (hd [] data)))) (objects data) ->
  exists r w',
    run image_path w = (r, w') /\
    (forall p, p ∉ names image_path data -> files w' !! p = files w !! p) /\
    (forall p, p ∈ dirs w -> files w' !! p = files w !! p) /\
    dirs w ⊆ dirs w' /\
    (can_mkdir w (output_dir image_path) ->
     r = Ok PyNone /\ dirs w' = {[output_dir image_path]} ∪ dirs w) /\
    (~ can_mkdir w (output_dir image_path) ->
     r = Raise FileExistsError /\ dirs w' = dirs w /\ files w' = files w).
Proof.
  intros Hdec Hok Hin.
  destruct (decide (can_mkdir w (output_dir image_path))) as [Hcan|Hcan].
  - eexists _, _. split; [by apply segment_objects_run|].
    rewrite finished_files, finished_dirs. split; [|split; [|split; [|split]]].
    + intros p Hp. apply write_all_other. left. by rewrite saved_images_names.
    + intros p Hp. apply write_all_other. right. by apply elem_of_union_r.
    + apply union_subseteq_r.
    + done.
    + done.
  - eexists _, _. split; [by apply segment_objects_stops|].
    unfold before_mkdir. cbn [files dirs]. split; [|split; [|split; [|split]]]; done.
Qed.

(** X10: running the script a second time on the same image has the
    outcome of the first run and leaves the files and the directories
    exactly as the first run left them. *)
Theorem second_run_changes_nothing (image_path : string) (data : raster) (w : world) :
  decode_file image_path = Some data -> decoded_ok data ->
  Forall (in_image (Z.of_nat (length data)) (Z.of_nat (length (hd [] data)))) (objects data) ->
  exists r w1 w2,
    run image_path w = (r, w1) /\
    run image_path w1 = (r, w2) /\
    files w2 = files w1 /\ dirs w2 = dirs w1 /\
    (can_mkdir w (output_dir image_path) -> r = Ok PyNone) /\
    (~ can_mkdir w (output_dir image_path) -> r = Raise FileExistsError).
Proof.
  intros Hdec Hok Hin.
  destruct (decide (can_mkdir w (output_dir image_path))) as [Hcan|Hcan].
  - eexists _, _, _. split; [by apply segment_objects_run|]. split.
    { apply segment_objects_run; [done..|]. left. rewrite finished_dirs.
      apply elem_of_union_l, elem_of_singleton. reflexivity. }
    split; [|split; [|done]].
    + rewrite !finished_files, !finished_dirs.
      rewrite (assoc_L (∪)), (idemp_L (∪)). apply write_all_twice.
    + rewrite !finished_dirs. by rewrite (assoc_L (∪)), (idemp_L (∪)).
  - eexists _, _, _. split; [by apply segment_objects_stops|]. split.
    { apply segment_objects_stops; [done..|]. exact Hcan. }
    done.
Qed.

(** X11: the console of a run on a readable image: the shape of the
    image, the number n of contours, the number m of retained ones with
    m <= n, and then, if the output directory can be made, one line per
    object in export order and the summary with the same m; if it cannot,
    nothing more: the run ends in [FileExistsError]. *)
Theorem console_of_a_run (image_path : string) (data : raster) (w : world) :
  decode_file image_path = Some data -> decoded_ok data ->
  Forall (in_image (Z.of_nat (length data)) (Z.of_nat (length (hd [] data)))) (objects data) ->
  let n := length (cv2_findContours find_external
                     (clean_noise (binarize (map (map bgr2gray) data)))) in
  let m := length (objects data) in
  let head := ["Image shape: (" +:+ str_nat (length data) +:+ ", "
                 +:+ str_nat (length (hd [] data)) +:+ ", 3)";
               "Found " +:+ str_nat n +:+ " contours";
               "Found " +:+ str_nat m +:+ " valid objects (area > 1000)"] in
  (m <= n)%nat /\
  (can_mkdir w (output_dir image_path) ->
   exists w',
     run image_path w = (Ok PyNone, w') /\
     stdout w'
     = stdout w ++ head
       ++ map (saved_line Path_join (output_dir image_path)) (enumerate 1 (objects data))
       ++ [newline +:+ "Done! Saved " +:+ str_nat m +:+ " parts to "
             +:+ output_dir image_path]) /\
  (~ can_mkdir w (output_dir image_path) ->
   exists w',
     run image_path w = (Raise FileExistsError, w') /\
     stdout w' = stdout w ++ head).
Proof.
  intros Hdec Hok Hin n m head. split; [|split].
  - unfold m, n, objects_of, valid_contours. apply List.filter_length_le.
  - intros Hcan. eexists. split; [by apply segment_objects_run|].
    unfold finished. cbn [stdout]. rewrite exported_all_stdout.
    unfold before_export, str_shape, loaded_img, shape. cbn [stdout fst snd nd_h nd_w nd_c].
    rewrite !str_Z_of_nat, <- !app_assoc. reflexivity.
  - intros Hcan. eexists. split; [by apply segment_objects_stops|].
    unfold before_mkdir, before_export, str_shape, loaded_img, shape.
    cbn [stdout fst snd nd_h nd_w nd_c].
    rewrite !str_Z_of_nat. reflexivity.
Qed.

End Files.

Lemma demo_names_distinct :
  NoDup (saved_files Demo.bgr2gray Demo.find_external Demo.Path_parent Demo.Path_join
           "ellis-tomte.jpg" Demo.picture).
Proof. apply (bool_decide_unpack _). vm_compute. reflexivity. Qed.

Lemma saved_files_hold_the_objects_witness :
  exists w',
    Demo.run "ellis-tomte.jpg" = (Ok PyNone, w') /\
    forall idx cnt,
      (idx, cnt) ∈ enumerate 1 (objects_of Demo.bgr2gray Demo.find_external Demo.picture) ->
      (object_path Demo.Path_join
         (output_dir_of Demo.Path_parent Demo.Path_join "ellis-tomte.jpg") idx
         ∉ {[output_dir_of Demo.Path_parent Demo.Path_join "ellis-tomte.jpg"]}
             ∪ dirs Demo.world0 ->
       files w' !! object_path Demo.Path_join
                     (output_dir_of Demo.Path_parent Demo.Path_join "ellis-tomte.jpg") idx
       = Some (cutout Demo.fill_covers Demo.picture cnt)) /\
      (object_path Demo.Path_join
         (output_dir_of Demo.Path_parent Demo.Path_join "ellis-tomte.jpg") idx
         ∈ {[output_dir_of Demo.Path_parent Demo.Path_join "ellis-tomte.jpg"]}
             ∪ dirs Demo.world0 ->
       files w' !! object_path Demo.Path_join
                     (output_dir_of Demo.Path_parent Demo.Path_join "ellis-tomte.jpg") idx
       = files Demo.world0
           !! object_path Demo.Path_join
                (output_dir_of Demo.Path_parent Demo.Path_join "ellis-tomte.jpg") idx).
Proof.
  apply (saved_files_hold_the_objects Demo.decode_file Demo.bgr2gray Demo.find_external
           Demo.fill_covers Demo.Path_parent Demo.Path_join "ellis-tomte.jpg" Demo.picture
           Demo.world0).
  - reflexivity.
  - exact picture_ok.
  - exact demo_objects_in_image.
  - exact demo_names_distinct.
  - right. reflexivity.
Defined.

Lemma other_files_are_untouched_witness :
  exists r w',
    Demo.run "ellis-tomte.jpg" = (r, w') /\
    (forall p,
       p ∉ saved_files Demo.bgr2gray Demo.find_external Demo.Path_parent Demo.Path_join
             "ellis-tomte.jpg" Demo.picture ->
       files w' !! p = files Demo.world0 !! p) /\
    (forall p, p ∈ dirs Demo.world0 -> files w' !! p = files Demo.world0 !! p) /\
    dirs Demo.world0 ⊆ dirs w' /\
    (can_mkdir Demo.world0
       (output_dir_of Demo.Path_parent Demo.Path_join "ellis-tomte.jpg") ->
     r = Ok PyNone /\
     dirs w'
     = {[output_dir_of Demo.Path_parent Demo.Path_join "ellis-tomte.jpg"]}
         ∪ dirs Demo.world0) /\
    (~ can_mkdir Demo.world0
         (output_dir_of Demo.Path_parent Demo.Path_join "ellis-tomte.jpg") ->
     r = Raise FileExistsError /\ dirs w' = dirs Demo.world0 /\
     files w' = files Demo.world0).
Proof.
  apply (other_files_are_untouched Demo.decode_file Demo.bgr2gray Demo.find_external
           Demo.fill_covers Demo.Path_parent Demo.Path_join "ellis-tomte.jpg" Demo.picture
           Demo.world0).
  - reflexivity.
  - exact picture_ok.
  - exact demo_objects_in_image.
Defined.

Lemma second_run_changes_nothing_witness :
  exists r w1 w2,
    Demo.run "ellis-tomte.jpg" = (r, w1) /\
    segment_objects Demo.decode_file Demo.bgr2gray Demo.find_external Demo.fill_covers
      Demo.Path_parent Demo.Path_join "ellis-tomte.jpg" w1 = (r, w2) /\
    files w2 = files w1 /\ dirs w2 = dirs w1 /\
    (can_mkdir Demo.world0
       (output_dir_of Demo.Path_parent Demo.Path_join "ellis-tomte.jpg") -> r = Ok PyNone) /\
    (~ can_mkdir Demo.world0
         (output_dir_of Demo.Path_parent Demo.Path_join "ellis-tomte.jpg") ->
     r = Raise FileExistsError).
Proof.
  apply (second_run_changes_nothing Demo.decode_file Demo.bgr2gray Demo.find_external
           Demo.fill_covers Demo.Path_parent Demo.Path_join "ellis-tomte.jpg" Demo.picture
           Demo.world0).
  - reflexivity.
  - exact picture_ok.
  - exact demo_objects_in_image.
Defined.

Lemma console_of_a_run_witness :
  exists w',
    Demo.run "ellis-tomte.jpg" = (Ok PyNone, w') /\
    stdout w'
    = stdout Demo.world0
      ++ ["Image shape: (" +:+ str_nat (length Demo.picture) +:+ ", "
            +:+ str_nat (length (hd [] Demo.picture)) +:+ ", 3)";
          "Found " +:+ str_nat (length (cv2_findContours Demo.find_external
              (clean_noise (binarize (map (map Demo.bgr2gray) Demo.picture)))))
            +:+ " contours";
          "Found " +:+ str_nat (length (objects_of Demo.bgr2gray Demo.find_external
                                          Demo.picture))
            +:+ " valid objects (area > 1000)"]
      ++ map (saved_line Demo.Path_join
                (output_dir_of Demo.Path_parent Demo.Path_join "ellis-tomte.jpg"))
             (enumerate 1 (objects_of Demo.bgr2gray Demo.find_external Demo.picture))
      ++ [newline +:+ "Done! Saved "
            +:+ str_nat (length (objects_of Demo.bgr2gray Demo.find_external Demo.picture))
            +:+ " parts to "
            +:+ output_dir_of Demo.Path_parent Demo.Path_join "ellis-tomte.jpg"].
Proof.
  apply (console_of_a_run Demo.decode_file Demo.bgr2gray Demo.find_external
           Demo.fill_covers Demo.Path_parent Demo.Path_join "ellis-tomte.jpg" Demo.picture
           Demo.world0).
  - reflexivity.
  - exact picture_ok.
  - exact demo_objects_in_image.
  - right. reflexivity.
Defined.
